(** * partitura/match.py: the match-file line grammar, in Rocq

    A shallow embedding of [partitura/match.py]: the field interpreter,
    the pitch model, the per-line grammars (regular expressions kept as
    the source's pattern text and compiled by [Re.compile]), the record
    classes with their constructors and [matchline] serialisers, and the
    dispatcher [parse_matchline].

    Python values are modelled by [PyVal]; exceptions by [result]; the
    performed-note objects, which [MatchSnoteNote.__init__] mutates in
    place, live in an explicit store.  A [str] is a Rocq [string] whose
    characters are read as the code points 0..255.

    Left out, as no line of the dispatcher reaches them: the class
    [MatchOrnamentNote], the file reader [MatchFile], the unused
    [Ratio] and [KEY_SIGNATURES], and the [__str__] methods. *)

From Stdlib Require Import ZArith Ascii String List Bool Lia.
From Stdlib Require Import Floats.SpecFloat.
From stdpp Require Import base option list strings gmap.

Set Default Proof Using "Type".

(** ** Exceptions and results *)

Inductive exn : Set :=
| MatchError
| ValueError
| TypeError
| AttributeError
| KeyError
| ZeroDivisionError
| OverflowError
| ReferenceError.

Inductive result (A : Type) : Type :=
| Ok (a : A)
| Raise (e : exn).
Arguments Ok {A} a.
Arguments Raise {A} e.

Definition rbind {A B} (r : result A) (k : A -> result B) : result B :=
  match r with
  | Ok a => k a
  | Raise e => Raise e
  end.

Declare Scope result_scope.
Delimit Scope result_scope with result.
Local Open Scope result_scope.
Notation "x <- r ;; k" := (rbind r (fun x => k))
  (at level 100, r at next level, right associativity) : result_scope.

Definition is_ok {A} (r : result A) : bool :=
  match r with Ok _ => true | Raise _ => false end.

(** ** Characters and strings of the Python runtime *)

Module Str.

Definition code (c : ascii) : nat := nat_of_ascii c.

Definition chr (n : nat) : ascii := ascii_of_nat n.

Definition in_range (lo hi : nat) (c : ascii) : bool :=
  (lo <=? code c)%nat && (code c <=? hi)%nat.

(** [str.isspace] on one character, for code points below 256; it is
    also what [\s] accepts. *)
Definition is_space (c : ascii) : bool :=
  in_range 9 13 c || in_range 28 32 c
  || (code c =? 133)%nat || (code c =? 160)%nat.

Definition is_digit (c : ascii) : bool := in_range 48 57 c.

Definition digit_val (c : ascii) : Z := Z.of_nat (code c) - 48.

Definition is_lower_az (c : ascii) : bool := in_range 97 122 c.
Definition is_upper_az (c : ascii) : bool := in_range 65 90 c.

Definition upper_char (c : ascii) : ascii :=
  if is_lower_az c then chr (code c - 32) else c.

Definition lower_char (c : ascii) : ascii :=
  if is_upper_az c then chr (code c + 32) else c.

Fixpoint map (f : ascii -> ascii) (s : string) : string :=
  match s with
  | EmptyString => EmptyString
  | String c s' => String (f c) (map f s')
  end.

(** [str.upper] and [str.lower] on the letters a..z; other characters
    are kept.  No character outside a..z has an upper case in A..Z or
    a lower case in a..z that the tables of this module look up, so
    the membership tests of the source read the same. *)
Definition upper (s : string) : string := map upper_char s.
Definition lower (s : string) : string := map lower_char s.

Fixpoint rev_onto (s acc : string) : string :=
  match s with
  | EmptyString => acc
  | String c s' => rev_onto s' (String c acc)
  end.

Definition rev (s : string) : string := rev_onto s EmptyString.

(** The blanks that [int] and [float] skip around a number: the ASCII
    white space and, turned into spaces beforehand, the other white
    space U+0085 and U+00A0; not the separators U+001C..U+001F. *)
Definition is_blank (c : ascii) : bool :=
  in_range 9 13 c || (code c =? 32)%nat
  || (code c =? 133)%nat || (code c =? 160)%nat.

Fixpoint lstrip (s : string) : string :=
  match s with
  | EmptyString => EmptyString
  | String c s' => if is_blank c then lstrip s' else s
  end.

(** The text without the blanks at its two ends. *)
Definition strip (s : string) : string := rev (lstrip (rev (lstrip s))).

Fixpoint drop (n : nat) (s : string) : string :=
  match n, s with
  | O, _ => s
  | S n', String _ s' => drop n' s'
  | S _, EmptyString => EmptyString
  end.

Fixpoint take (n : nat) (s : string) : string :=
  match n, s with
  | S n', String c s' => String c (take n' s')
  | _, _ => EmptyString
  end.

(** [s[i:j]] for [0 <= i <= j] *)
Definition slice (i j : nat) (s : string) : string := take (j - i) (drop i s).

Fixpoint forallb (p : ascii -> bool) (s : string) : bool :=
  match s with
  | EmptyString => true
  | String c s' => p c && forallb p s'
  end.

Fixpoint existsb (p : ascii -> bool) (s : string) : bool :=
  match s with
  | EmptyString => false
  | String c s' => p c || existsb p s'
  end.

Definition contains (c : ascii) (s : string) : bool :=
  existsb (Ascii.eqb c) s.

Definition is_empty (s : string) : bool :=
  match s with EmptyString => true | _ => false end.

(** [s.split(sep)] for a one-character separator: the pieces between
    the occurrences of [sep], always at least one piece. *)
Fixpoint split_go (sep : ascii) (s cur : string) : list string :=
  match s with
  | EmptyString => [rev cur]
  | String c s' =>
      if Ascii.eqb c sep then rev cur :: split_go sep s' EmptyString
      else split_go sep s' (String c cur)
  end.

Definition split (sep : ascii) (s : string) : list string :=
  split_go sep s EmptyString.

(** [sep.join(parts)] *)
Definition join (sep : string) (parts : list string) : string :=
  String.concat sep parts.

(** Leading run of decimal digits and the rest. *)
Fixpoint span_digits (s : string) : string * string :=
  match s with
  | String c s' =>
      if is_digit c then
        let '(d, r) := span_digits s' in (String c d, r)
      else (EmptyString, s)
  | EmptyString => (EmptyString, EmptyString)
  end.

Fixpoint digits_value (acc : Z) (s : string) : Z :=
  match s with
  | EmptyString => acc
  | String c s' => digits_value (10 * acc + digit_val c) s'
  end.

Definition remove (c : ascii) (s : string) : string :=
  String.concat EmptyString (split c s).

(** Decimal text of a positive number, most significant digit first. *)
Fixpoint of_pos_go (fuel : nat) (n : Z) (acc : string) : string :=
  match fuel with
  | O => acc
  | S fuel' =>
      let acc' := String (chr (48 + Z.to_nat (n mod 10))) acc in
      if (n / 10 =? 0)%Z then acc' else of_pos_go fuel' (n / 10) acc'
  end.

(** [str(n)] for an [int] *)
Definition of_Z (n : Z) : string :=
  match n with
  | Z0 => "0"
  | Zpos p => of_pos_go (Pos.size_nat p) (Zpos p) EmptyString
  | Zneg p => String "-" (of_pos_go (Pos.size_nat p) (Zpos p) EmptyString)
  end.

End Str.

(** ** Python [float]: IEEE-754 binary64, after the library's [SpecFloat] *)

Module Float.

Definition prec : Z := 53.
Definition emax : Z := 1024.

Definition t : Set := spec_float.

Definition eqb (x y : t) : bool :=
  match x, y with
  | S754_zero a, S754_zero b => Bool.eqb a b
  | S754_infinity a, S754_infinity b => Bool.eqb a b
  | S754_nan, S754_nan => true
  | S754_finite a m e, S754_finite b n f =>
      Bool.eqb a b && Pos.eqb m n && Z.eqb e f
  | _, _ => false
  end.

(** The binary64 nearest to [n/d] (ties to even), [d > 0]. *)
Definition of_ratio (n : Z) (d : positive) : t :=
  match n with
  | Z0 => S754_zero false
  | Zpos p => SFdiv prec emax (S754_finite false p 0) (S754_finite false d 0)
  | Zneg p => SFdiv prec emax (S754_finite true p 0) (S754_finite false d 0)
  end.

(** The binary64 nearest to [m * 10^e], of sign [neg] when [m = 0]. *)
Definition of_decimal (neg : bool) (m : Z) (e : Z) : t :=
  if (m =? 0)%Z then S754_zero neg
  else
    let sm := if neg then (- m)%Z else m in
    match e with
    | Zneg k => of_ratio sm (Pos.pow 10 k)
    | _ => of_ratio (sm * 10 ^ e)%Z 1
    end.

(** [float(n)] for an [int]: [OverflowError] past the finite range. *)
Definition of_int (n : Z) : result t :=
  match of_ratio n 1 with
  | S754_infinity _ => Raise OverflowError
  | f => Ok f
  end.

(** [x / y] on floats *)
Definition div (x y : t) : result t :=
  match y with
  | S754_zero _ => Raise ZeroDivisionError
  | _ => Ok (SFdiv prec emax x y)
  end.

Definition add (x y : t) : t := SFadd prec emax x y.

(** [int(x)]: truncation towards zero *)
Definition to_int (x : t) : result Z :=
  match x with
  | S754_zero _ => Ok 0%Z
  | S754_infinity _ => Raise OverflowError
  | S754_nan => Raise ValueError
  | S754_finite s m e =>
      let a := match e with
               | Zneg k => Z.shiftr (Zpos m) (Zpos k)
               | _ => Z.shiftl (Zpos m) e
               end in
      Ok (if s then (- a)%Z else a)
  end.

(** [x.as_integer_ratio()] of a finite float, in lowest terms. *)
Fixpoint reduce2 (m : positive) (k : nat) : positive * nat :=
  match k, m with
  | S k', xO m' => reduce2 m' k'
  | _, _ => (m, k)
  end.

Definition as_integer_ratio (x : t) : result (Z * Z) :=
  match x with
  | S754_zero _ => Ok (0, 1)%Z
  | S754_infinity _ => Raise OverflowError
  | S754_nan => Raise ValueError
  | S754_finite s m e =>
      let '(n, d) :=
        match e with
        | Zneg k =>
            let '(m', k') := reduce2 m (Pos.to_nat k) in
            (Zpos m', 2 ^ Z.of_nat k')%Z
        | _ => (Zpos m * 2 ^ e, 1)%Z
        end in
      Ok (if s then (- n)%Z else n, d)
  end.

(** *** Text to float: the grammar of [float(str)] *)

Definition is_sign (c : ascii) : bool :=
  Ascii.eqb c "+" || Ascii.eqb c "-".

Definition split_sign (s : string) : bool * string :=
  match s with
  | String c s' =>
      if Ascii.eqb c "-" then (true, s')
      else if Ascii.eqb c "+" then (false, s')
      else (false, s)
  | EmptyString => (false, s)
  end.

(** An underscore stands only between two digits. *)
Fixpoint underscores_ok (prev : ascii) (s : string) : bool :=
  match s with
  | EmptyString => negb (Ascii.eqb prev "_")
  | String c s' =>
      (if Ascii.eqb c "_" then Str.is_digit prev
       else negb (Ascii.eqb prev "_") || Str.is_digit c)
      && underscores_ok c s'
  end.

Definition parse_exponent (s : string) : option Z :=
  match s with
  | EmptyString => Some 0%Z
  | String c s' =>
      if Ascii.eqb c "e" || Ascii.eqb c "E" then
        let '(neg, ds) := split_sign s' in
        if negb (Str.is_empty ds) && Str.forallb Str.is_digit ds then
          let v := Str.digits_value 0 ds in
          Some (if neg then (- v)%Z else v)
        else None
      else None
  end.

Definition parse_finite (neg : bool) (s : string) : option t :=
  let '(ip, r1) := Str.span_digits s in
  let '(fp, r2) :=
    match r1 with
    | String "." r => Str.span_digits r
    | _ => (EmptyString, r1)
    end in
  if Str.is_empty ip && Str.is_empty fp then None
  else
    match parse_exponent r2 with
    | Some ex =>
        let m := Str.digits_value 0 (ip +:+ fp) in
        Some (of_decimal neg m (ex - Z.of_nat (String.length fp)))
    | None => None
    end.

(** [float(s)]: [None] stands for [ValueError]. *)
Definition of_string (s : string) : option t :=
  let s1 := Str.strip s in
  if negb (underscores_ok "000" s1) then None
  else
    let '(neg, body) := split_sign (Str.remove "_" s1) in
    let low := Str.lower body in
    if String.eqb low "inf" || String.eqb low "infinity" then
      Some (S754_infinity neg)
    else if String.eqb low "nan" then Some S754_nan
    else parse_finite neg body.

(** *** Float to text: [repr(x)], the shortest digits that read back *)

Definition round_half_even (a b : Z) : Z :=
  let q := (a / b)%Z in
  match (2 * (a mod b) ?= b)%Z with
  | Lt => q
  | Gt => (q + 1)%Z
  | Eq => if Z.even q then q else (q + 1)%Z
  end.

Definition digits10 (n : Z) : Z := Z.of_nat (String.length (Str.of_Z n)).

(** The [k] with [10^k <= n/d < 10^(k+1)], for [n, d > 0]. *)
Definition floor_log10 (n d : Z) : Z :=
  if (d <=? n)%Z then (digits10 (n / d) - 1)%Z
  else (- digits10 ((d + n - 1) / n - 1))%Z.

(** [n/d] rounded to [p] significant digits: the digits as a number
    and the exponent of the leading digit. *)
Definition round_digits (n d : Z) (p : Z) : Z * Z :=
  let k := floor_log10 n d in
  let sh := (p - 1 - k)%Z in
  let q := if (0 <=? sh)%Z then round_half_even (n * 10 ^ sh) d
           else round_half_even n (d * 10 ^ (- sh)) in
  if (q =? 10 ^ p)%Z then (10 ^ (p - 1), k + 1)%Z else (q, k).

Fixpoint shortest_go (fuel : nat) (p : Z) (x : t) (n d : Z) : Z * Z :=
  let '(q, k) := round_digits n d p in
  match fuel with
  | O => (q, k)
  | S fuel' =>
      if eqb (of_decimal false q (k - p + 1)) x then (q, k)
      else shortest_go fuel' (p + 1) x n d
  end.

(** Shortest decimal digits of a positive finite float and the
    position of the decimal point (value = 0.d1d2... * 10^decpt). *)
Definition shortest_digits (m : positive) (e : Z) : string * Z :=
  let '(n, d) := match e with
                 | Zneg k => (Zpos m, Zpos (Pos.pow 2 k))
                 | _ => (Zpos m * 2 ^ e, 1)%Z
                 end in
  let '(q, k) := shortest_go 16 1 (S754_finite false m e) n d in
  (Str.of_Z q, (k + 1)%Z).

Fixpoint zeros (n : nat) : string :=
  match n with
  | O => EmptyString
  | S n' => String "0" (zeros n')
  end.

Definition exponent_text (e : Z) : string :=
  let a := Str.of_Z (Z.abs e) in
  String (if (e <? 0)%Z then "-" else "+")%char
    (if (String.length a <? 2)%nat then String "0" a else a).

Definition format_digits (ds : string) (decpt : Z) : string :=
  let nd := Z.of_nat (String.length ds) in
  if ((decpt <=? -4) || (16 <? decpt))%Z then
    let frac := Str.drop 1 ds in
    Str.take 1 ds
    +:+ (if Str.is_empty frac then EmptyString else String "." frac)
    +:+ String "e" (exponent_text (decpt - 1))
  else if (decpt <=? 0)%Z then
    "0." +:+ zeros (Z.to_nat (- decpt)) +:+ ds
  else if (decpt <? nd)%Z then
    Str.take (Z.to_nat decpt) ds +:+ String "." (Str.drop (Z.to_nat decpt) ds)
  else
    ds +:+ zeros (Z.to_nat (decpt - nd)) +:+ ".0".

(** [repr(x)], which is also [str(x)] and [format(x, '')] *)
Definition repr (x : t) : string :=
  match x with
  | S754_zero s => if s then "-0.0" else "0.0"
  | S754_infinity s => if s then "-inf" else "inf"
  | S754_nan => "nan"
  | S754_finite s m e =>
      let '(ds, decpt) := shortest_digits m e in
      (if s then "-" else EmptyString) +:+ format_digits ds decpt
  end.

End Float.

(** ** Python values and the builtins the module calls *)

Inductive PyVal : Type :=
| PyNone
| PyInt (n : Z)
| PyFloat (x : Float.t)
| PyStr (s : string)
| PyList (items : list string).

Module Py.

Definition is_none (v : PyVal) : bool :=
  match v with PyNone => true | _ => false end.

Definition is_number (v : PyVal) : bool :=
  match v with PyInt _ | PyFloat _ => true | _ => false end.

(** [int(s)] for a [str]: optional blanks, an optional sign, decimal
    digits with single underscores between them; [None] stands for
    [ValueError].  The bound that Python 3.11 and later put on the
    number of digits (4300 by default) is not modelled. *)
Definition int_of_string (s : string) : option Z :=
  let '(neg, body) := Float.split_sign (Str.strip s) in
  let ds := Str.remove "_" body in
  if Float.underscores_ok "_" body && negb (Str.is_empty ds)
     && Str.forallb Str.is_digit ds
  then let v := Str.digits_value 0 ds in Some (if neg then (- v)%Z else v)
  else None.

(** [int(v)] *)
Definition int (v : PyVal) : result Z :=
  match v with
  | PyInt n => Ok n
  | PyFloat x => Float.to_int x
  | PyStr s =>
      match int_of_string s with
      | Some n => Ok n
      | None => Raise ValueError
      end
  | PyNone | PyList _ => Raise TypeError
  end.

(** [float(s)] for a [str] *)
Definition float (s : string) : result Float.t :=
  match Float.of_string s with
  | Some x => Ok x
  | None => Raise ValueError
  end.

(** The double quote. *)
Definition quote2 : ascii := Str.chr 34.

Definition hex_digit (n : nat) : ascii :=
  if (n <? 10)%nat then Str.chr (48 + n) else Str.chr (87 + n).

Definition repr_char (q c : ascii) : string :=
  if Ascii.eqb c q || Ascii.eqb c "\" then String "\" (String c EmptyString)
  else if (Str.code c =? 9)%nat then "\t"
  else if (Str.code c =? 10)%nat then "\n"
  else if (Str.code c =? 13)%nat then "\r"
  else if (Str.code c <? 32)%nat || Str.in_range 127 160 c
          || (Str.code c =? 173)%nat
  then "\x" +:+ String (hex_digit (Str.code c / 16))
                 (String (hex_digit (Str.code c mod 16)) EmptyString)
  else String c EmptyString.

Fixpoint repr_body (q : ascii) (s : string) : string :=
  match s with
  | EmptyString => EmptyString
  | String c s' => repr_char q c +:+ repr_body q s'
  end.

(** [repr(s)] for a [str] *)
Definition repr_str (s : string) : string :=
  let q := if Str.contains "'" s && negb (Str.contains quote2 s)
           then quote2 else "'"%char in
  String q (repr_body q s) +:+ String q EmptyString.

(** [str(v)], which [str.format] applies to a field with no format
    specification. *)
Definition str (v : PyVal) : string :=
  match v with
  | PyNone => "None"
  | PyInt n => Str.of_Z n
  | PyFloat x => Float.repr x
  | PyStr s => s
  | PyList l => "[" +:+ Str.join ", " (List.map repr_str l) +:+ "]"
  end.

(** [str(Fraction.from_float(v))]: an [int] goes through [Fraction(v)],
    a [float] through its exact integer ratio, anything else is a
    [TypeError]. *)
Definition fraction_from_float_str (v : PyVal) : result string :=
  match v with
  | PyInt n => Ok (Str.of_Z n)
  | PyFloat x =>
      r <- Float.as_integer_ratio x ;;
      Ok (if (snd r =? 1)%Z then Str.of_Z (fst r)
          else Str.of_Z (fst r) +:+ "/" +:+ Str.of_Z (snd r))
  | _ => Raise TypeError
  end.

(** [a + b] on numbers, as [sum] uses it. *)
Definition add (a b : PyVal) : result PyVal :=
  match a, b with
  | PyInt m, PyInt n => Ok (PyInt (m + n))
  | PyInt m, PyFloat y => x <- Float.of_int m ;; Ok (PyFloat (Float.add x y))
  | PyFloat x, PyInt n => y <- Float.of_int n ;; Ok (PyFloat (Float.add x y))
  | PyFloat x, PyFloat y => Ok (PyFloat (Float.add x y))
  | _, _ => Raise TypeError
  end.

(** [sum(l)], starting from the [int] 0 *)
Fixpoint sum_from (acc : PyVal) (l : list PyVal) : result PyVal :=
  match l with
  | [] => Ok acc
  | v :: l' => a <- add acc v ;; sum_from a l'
  end.

Definition sum (l : list PyVal) : result PyVal := sum_from (PyInt 0) l.

(** *** Keyword arguments and [str.format] *)

(** [dict(zip(names, values))]: [zip] stops at the shorter list, a
    later pair overwrites an earlier one with the same key. *)
Definition dict_zip (names : list string) (values : list PyVal)
  : gmap string PyVal :=
  fold_left (fun d kv => <[kv.1 := kv.2]> d) (zip names values) ∅.

(** Binding a call with keyword arguments [kw] against the parameter
    list of the callee: every key names a parameter and every parameter
    without a default has a key; otherwise [TypeError]. *)
Definition bind_kwargs (required optional : list string)
    (kw : gmap string PyVal) : result unit :=
  if forallb (fun k => bool_decide (k ∈ required ++ optional))
             (List.map fst (map_to_list kw))
     && forallb (fun p => bool_decide (is_Some (kw !! p))) required
  then Ok tt else Raise TypeError.

Definition arg (kw : gmap string PyVal) (name : string) (dflt : PyVal)
  : PyVal := default dflt (kw !! name).

(** [pat.format(name=value, ...)] for a pattern whose replacement
    fields are plain names [{name}]. *)
Fixpoint format_go (kw : gmap string PyVal) (s : string)
    (field : option string) : result string :=
  match s with
  | EmptyString =>
      match field with
      | None => Ok EmptyString
      | Some _ => Raise ValueError
      end
  | String c s' =>
      match field with
      | None =>
          if Ascii.eqb c "{" then format_go kw s' (Some EmptyString)
          else if Ascii.eqb c "}" then Raise ValueError
          else r <- format_go kw s' None ;; Ok (String c r)
      | Some name =>
          if Ascii.eqb c "}" then
            match kw !! Str.rev name with
            | Some v => r <- format_go kw s' None ;; Ok (str v +:+ r)
            | None => Raise KeyError
            end
          else format_go kw s' (Some (String c name))
      end
  end.

Definition format (pat : string) (kw : list (string * PyVal))
  : result string :=
  format_go (list_to_map kw) pat None.

End Py.

(** ** Regular expressions: the fragment of [re] the patterns use

    Every pattern of the module is a sequence of single characters,
    character sets, [.], [\s], the anchors [^] and [$], unnested
    capturing groups, and the greedy repeats [*] and [+] applied to one
    character or set.  [compile] reads the pattern text of the source;
    [search] is the backtracking search of [re]: leftmost start, each
    repeat as long as the rest of the pattern allows. *)

Module Re.

Inductive cset : Set :=
| CLit (c : ascii)
| CRange (lo hi : ascii)
| CSpace.

Inductive atom : Set :=
| AChar (c : ascii)
| AAny
| ASpace
| ASet (neg : bool) (members : list cset).

Inductive item : Set :=
| IOne (a : atom)
| IStar (a : atom)
| IPlus (a : atom)
| IOpen
| IClose
| IBol
| IEol
| IFail.

Definition regex : Set := list item.

(** *** Reading a pattern *)

Inductive mode : Set :=
| MTop
| MEsc
| MSetStart
| MSet (neg : bool) (ms : list cset)
| MSetEsc (neg : bool) (ms : list cset)
| MRange (neg : bool) (ms : list cset) (lo : ascii).

Definition is_alnum (c : ascii) : bool :=
  Str.is_digit c || Str.is_lower_az c || Str.is_upper_az c.

Definition escape_atom (c : ascii) : option atom :=
  if Ascii.eqb c "s" then Some ASpace
  else if is_alnum c then None
  else Some (AChar c).

Definition starts_with (c : ascii) (s : string) : bool :=
  match s with
  | String d _ => Ascii.eqb c d
  | EmptyString => false
  end.

(** [acc] holds the items read so far, last first; [depth] is the
    number of open groups. *)
Fixpoint parse (s : string) (m : mode) (depth : nat) (acc : list item)
  : option regex :=
  match s with
  | EmptyString =>
      match m, depth with
      | MTop, O => Some (rev acc)
      | _, _ => None
      end
  | String c s' =>
      match m with
      | MTop =>
          if Ascii.eqb c "\" then parse s' MEsc depth acc
          else if Ascii.eqb c "[" then parse s' MSetStart depth acc
          else if Ascii.eqb c "(" then
            match depth with
            | O => parse s' MTop 1 (IOpen :: acc)
            | S _ => None
            end
          else if Ascii.eqb c ")" then
            match depth with
            | 1 => parse s' MTop 0 (IClose :: acc)
            | _ => None
            end
          else if Ascii.eqb c "." then parse s' MTop depth (IOne AAny :: acc)
          else if Ascii.eqb c "^" then parse s' MTop depth (IBol :: acc)
          else if Ascii.eqb c "$" then parse s' MTop depth (IEol :: acc)
          else if Ascii.eqb c "*" then
            match acc with
            | IOne a :: acc' => parse s' MTop depth (IStar a :: acc')
            | _ => None
            end
          else if Ascii.eqb c "+" then
            match acc with
            | IOne a :: acc' => parse s' MTop depth (IPlus a :: acc')
            | _ => None
            end
          else if Ascii.eqb c "?" || Ascii.eqb c "{" || Ascii.eqb c "|"
          then None
          else parse s' MTop depth (IOne (AChar c) :: acc)
      | MEsc =>
          match escape_atom c with
          | Some a => parse s' MTop depth (IOne a :: acc)
          | None => None
          end
      | MSetStart =>
          if Ascii.eqb c "^" then parse s' (MSet true []) depth acc
          else if Ascii.eqb c "]" then None
          else if Ascii.eqb c "\" then parse s' (MSetEsc false []) depth acc
          else parse s' (MSet false [CLit c]) depth acc
      | MSet neg ms =>
          if Ascii.eqb c "]" then
            match ms with
            | [] => None
            | _ => parse s' MTop depth (IOne (ASet neg (rev ms)) :: acc)
            end
          else if Ascii.eqb c "\" then parse s' (MSetEsc neg ms) depth acc
          else if Ascii.eqb c "-" then
            match ms with
            | CLit lo :: ms' =>
                if starts_with "]" s' then parse s' (MSet neg (CLit c :: ms)) depth acc
                else parse s' (MRange neg ms' lo) depth acc
            | _ => parse s' (MSet neg (CLit c :: ms)) depth acc
            end
          else parse s' (MSet neg (CLit c :: ms)) depth acc
      | MSetEsc neg ms =>
          match escape_atom c with
          | Some (AChar d) => parse s' (MSet neg (CLit d :: ms)) depth acc
          | Some ASpace => parse s' (MSet neg (CSpace :: ms)) depth acc
          | _ => None
          end
      | MRange neg ms lo =>
          if Ascii.eqb c "\" || Ascii.eqb c "[" then None
          else parse s' (MSet neg (CRange lo c :: ms)) depth acc
      end
  end.

(** [re.compile(pattern)].  A pattern outside the fragment compiles to
    [IFail], which matches nothing; no pattern of the module does
    (see [patterns_compile]). *)
Definition compile (pattern : string) : regex :=
  match parse pattern MTop 0 [] with
  | Some r => r
  | None => [IFail]
  end.

(** *** Matching *)

Definition in_cset (c : ascii) (m : cset) : bool :=
  match m with
  | CLit d => Ascii.eqb c d
  | CRange lo hi => Str.in_range (Str.code lo) (Str.code hi) c
  | CSpace => Str.is_space c
  end.

Definition atom_ok (a : atom) (c : ascii) : bool :=
  match a with
  | AChar d => Ascii.eqb c d
  | AAny => negb (Str.code c =? 10)%nat
  | ASpace => Str.is_space c
  | ASet neg ms => xorb neg (List.existsb (in_cset c) ms)
  end.

(** Greedy repeat of one atom: take a character if it fits and the
    longer attempt succeeds, else go on with the rest [k] from here. *)
Fixpoint greedy {R} (a : atom) (k : nat -> string -> option R)
    (i : nat) (s : string) : option R :=
  match s with
  | String c s' =>
      if atom_ok a c then
        match greedy a k (S i) s' with
        | Some x => Some x
        | None => k i s
        end
      else k i s
  | EmptyString => k i s
  end.

Definition at_end (s : string) : bool :=
  match s with
  | EmptyString => true
  | String c EmptyString => (Str.code c =? 10)%nat
  | _ => false
  end.

(** [match_here r i s start caps]: match [r] against [s], the text
    from position [i] on; [start] is where the open group began,
    [caps] the closed groups, last first.  Returns the end position
    and the groups. *)
Fixpoint match_here (r : regex) (i : nat) (s : string) (start : nat)
    (caps : list (nat * nat)) {struct r} : option (nat * list (nat * nat)) :=
  match r with
  | [] => Some (i, caps)
  | IOne a :: r' =>
      match s with
      | String c s' =>
          if atom_ok a c then match_here r' (S i) s' start caps else None
      | EmptyString => None
      end
  | IStar a :: r' =>
      greedy a (fun j t => match_here r' j t start caps) i s
  | IPlus a :: r' =>
      match s with
      | String c s' =>
          if atom_ok a c
          then greedy a (fun j t => match_here r' j t start caps) (S i) s'
          else None
      | EmptyString => None
      end
  | IOpen :: r' => match_here r' i s i caps
  | IClose :: r' => match_here r' i s start ((start, i) :: caps)
  | IBol :: r' =>
      match i with
      | O => match_here r' i s start caps
      | S _ => None
      end
  | IEol :: r' => if at_end s then match_here r' i s start caps else None
  | IFail :: _ => None
  end.

(** A match object: the searched text and the spans of the groups. *)
Record match_obj : Set := MatchObj {
  text : string;
  span : nat * nat;
  spans : list (nat * nat)
}.

(** [m.groups()] *)
Definition groups (m : match_obj) : list string :=
  List.map (fun c => Str.slice (fst c) (snd c) (text m)) (spans m).

Fixpoint search_from (r : regex) (whole : string) (i : nat) (s : string)
  : option match_obj :=
  match match_here r i s 0 [] with
  | Some (j, caps) => Some (MatchObj whole (i, j) (rev caps))
  | None =>
      match s with
      | String _ s' => search_from r whole (S i) s'
      | EmptyString => None
      end
  end.

(** [r.search(s, pos)] *)
Definition search (r : regex) (s : string) (pos : nat) : option match_obj :=
  if (pos <=? String.length s)%nat
  then search_from r s pos (Str.drop pos s)
  else None.

(** [r.match(s)]: a match starting at position 0 *)
Definition match_ (r : regex) (s : string) : option match_obj :=
  match match_here r 0 s 0 [] with
  | Some (j, caps) => Some (MatchObj s (0, j) (rev caps))
  | None => None
  end.

End Re.

(** ** Module constants *)

Definition rational_pattern : Re.regex := Re.compile "^([0-9]+)/([0-9]+)$".

Definition LATEST_VERSION : PyVal := PyFloat (Float.of_ratio 5 1).

Definition PITCH_CLASSES : list (string * string) :=
  [("C", "n"); ("C", "#"); ("D", "n"); ("D", "#"); ("E", "n"); ("F", "n");
   ("F", "#"); ("G", "n"); ("G", "#"); ("A", "n"); ("A", "#"); ("B", "n")].

(** [dict(zip(range(12), PITCH_CLASSES))] *)
Definition PC_DICT : gmap Z (string * string) :=
  list_to_map (zip (List.map Z.of_nat (seq 0 12)) PITCH_CLASSES).

Definition NOTE_NAMES : list string := ["C"; "D"; "E"; "F"; "G"; "A"; "B"].

(** ** The pitch model *)

Definition base_classes : gmap string Z :=
  list_to_map [("c", 0); ("d", 2); ("e", 4); ("f", 5); ("g", 7); ("a", 9);
               ("b", 11)]%Z.

Definition modifier_offsets : gmap string Z :=
  list_to_map [("b", -1); ("bb", -2); ("#", 1); ("x", 2); ("##", 2);
               ("n", 0)]%Z.

(** [d[key]] on a dictionary with [str] keys: a key of another hashable
    type is absent, a list is unhashable. *)
Definition getitem (d : gmap string Z) (key : PyVal) : result Z :=
  match key with
  | PyStr k =>
      match d !! k with
      | Some v => Ok v
      | None => Raise KeyError
      end
  | PyList _ => Raise TypeError
  | _ => Raise KeyError
  end.

(** [v.lower()] and [v.upper()]: only a [str] has the method. *)
Definition str_lower (v : PyVal) : result string :=
  match v with
  | PyStr s => Ok (Str.lower s)
  | _ => Raise AttributeError
  end.

Definition str_upper (v : PyVal) : result string :=
  match v with
  | PyStr s => Ok (Str.upper s)
  | _ => Raise AttributeError
  end.

Definition is_rest (name : PyVal) : bool :=
  match name with
  | PyStr s => String.eqb s "r"
  | _ => false
  end.

(** [octave] is an [int] at every call of the module; [np.mod] on
    integers is the remainder with the sign of the divisor. *)
Definition pitch_name_2_midi_PC (modifier name : PyVal) (octave : Z)
  : result (Z * Z) :=
  if is_rest name then Ok (0, 0)%Z
  else
    lname <- str_lower name ;;
    base <- getitem base_classes (PyStr lname) ;;
    offs <- getitem modifier_offsets modifier ;;
    let base_class := (base + offs)%Z in
    let mid := ((octave + 1) * 12 + base_class)%Z in
    let pitchclass := (base_class mod 12)%Z in
    Ok (mid, pitchclass).

(** ** Field interpretation *)

Definition interpret_field (data : string) : PyVal :=
  match Py.int_of_string data with
  | Some n => PyInt n
  | None =>
      match Float.of_string data with
      | Some x => PyFloat x
      | None => PyStr data
      end
  end.

(** The list comprehension [[f(a) for a in l]]: the first exception
    ends it. *)
Fixpoint mapR {A B} (f : A -> result B) (l : list A) : result (list B) :=
  match l with
  | [] => Ok []
  | a :: l' => b <- f a ;; bs <- mapR f l' ;; Ok (b :: bs)
  end.

(** The source recurses once, with [allow_additions=False]; [depth]
    bounds that recursion, and [interpret_field_rational] gives it the
    one level it can use ([interpret_field_rational_depth]).  A match of
    [rational_pattern] has exactly two groups
    ([rational_match_groups]), so the branch for another number of
    groups is never taken. *)
Fixpoint interpret_field_rational_rec (depth : nat) (data : string)
    (allow_additions : bool) : result PyVal :=
  let v := interpret_field data in
  match v with
  | PyStr v =>
      match Re.match_ rational_pattern v with
      | Some m =>
          match Re.groups m with
          | [g0; g1] =>
              x <- Py.float g0 ;;
              y <- Py.float g1 ;;
              q <- Float.div x y ;;
              Ok (PyFloat q)
          | _ => Raise TypeError
          end
      | None =>
          if allow_additions then
            let parts := Str.split "+" v in
            if (1 <? length parts)%nat then
              match depth with
              | S depth' =>
                  iparts <- mapR (fun i =>
                              interpret_field_rational_rec depth' i false)
                            parts ;;
                  if forallb Py.is_number iparts then Py.sum iparts
                  else Ok (PyStr v)
              | O => Ok (PyStr v)
              end
            else Ok (PyStr v)
          else Ok (PyStr v)
      end
  | _ => Ok v
  end.

Definition interpret_field_rational (data : string) (allow_additions : bool)
  : result PyVal :=
  interpret_field_rational_rec 1 data allow_additions.

(** ** The grammar classes *)

(** [MatchLine]: the base class.  [field_interpreter] is
    [interpret_field_rational], called with one argument, so with
    [allow_additions] at its default [False]. *)
Module MatchLine.

Definition field_interpreter (data : string) : result PyVal :=
  interpret_field_rational data false.

(** [[cls.field_interpreter(i) for i in match_pattern.groups()]] *)
Definition interpret_groups (m : Re.match_obj) : result (list PyVal) :=
  mapR field_interpreter (Re.groups m).

Section FromMatchline.
Context {A : Type}.
Variable re_obj : Re.regex.
Variable field_names : list string.
(** the call of the class with keyword arguments *)
Variable cls : gmap string PyVal -> result A.

Definition match_pattern (s : string) (pos : nat) : option Re.match_obj :=
  Re.search re_obj s pos.

Definition from_matchline (matchline : string) (pos : nat) : result A :=
  match Re.search re_obj matchline pos with
  | Some match_pattern =>
      groups <- interpret_groups match_pattern ;;
      let kwargs := Py.dict_zip field_names groups in
      cls kwargs
  | None => Raise MatchError
  end.
End FromMatchline.

End MatchLine.

Module MatchInfo.

Definition out_pattern : string := "info({Attribute},{Value}).".
Definition field_names : list string := ["Attribute"; "Value"].
Definition pattern : string := "info\(\s*([^,]+)\s*,\s*(.+)\s*\)\.".
Definition re_obj : Re.regex := Re.compile pattern.

Record t : Type := { Attribute : PyVal; Value : PyVal }.

Definition init (Attribute Value : PyVal) : t :=
  {| Attribute := Attribute; Value := Value |}.

Definition new (kw : gmap string PyVal) : result t :=
  _ <- Py.bind_kwargs field_names [] kw ;;
  Ok (init (Py.arg kw "Attribute" PyNone) (Py.arg kw "Value" PyNone)).

Definition matchline (self : t) : result string :=
  Py.format out_pattern
    [("Attribute", Attribute self); ("Value", Value self)].

Definition from_matchline (matchline : string) (pos : nat) : result t :=
  MatchLine.from_matchline re_obj field_names new matchline pos.

End MatchInfo.

Module MatchMeta.

Definition out_pattern : string :=
  "meta({Attribute},{Value},{Bar},{TimeInBeats}).".
Definition field_names : list string :=
  ["Attribute"; "Value"; "Bar"; "TimeInBeats"].
Definition pattern : string :=
  "meta\(\s*([^,]*)\s*,\s*([^,]*)\s*,\s*([^,]*)\s*,\s*([^,]*)\s*\)\.".
Definition re_obj : Re.regex := Re.compile pattern.

Record t : Type := {
  Attribute : PyVal; Value : PyVal; Bar : PyVal; TimeInBeats : PyVal
}.

Definition init (Attribute Value Bar TimeInBeats : PyVal) : t :=
  {| Attribute := Attribute; Value := Value; Bar := Bar;
     TimeInBeats := TimeInBeats |}.

Definition new (kw : gmap string PyVal) : result t :=
  _ <- Py.bind_kwargs field_names [] kw ;;
  Ok (init (Py.arg kw "Attribute" PyNone) (Py.arg kw "Value" PyNone)
           (Py.arg kw "Bar" PyNone) (Py.arg kw "TimeInBeats" PyNone)).

Definition matchline (self : t) : result string :=
  Py.format out_pattern
    [("Attribute", Attribute self); ("Value", Value self);
     ("Bar", Bar self); ("TimeInBeats", TimeInBeats self)].

Definition from_matchline (matchline : string) (pos : nat) : result t :=
  MatchLine.from_matchline re_obj field_names new matchline pos.

End MatchMeta.

(** A score note. *)
Module MatchSnote.

Definition out_pattern : string :=
  "snote({Anchor},[{NoteName},{Modifier}],{Octave},"
  +:+ "{Bar}:{Beat},{Offset},{Duration},"
  +:+ "{OnsetInBeats},{OffsetInBeats},"
  +:+ "[{ScoreAttributesList}])".

Definition pattern : string :=
  "snote\(([^,]+),\[([^,]+),([^,]+)\],([^,]+),([^,]+):([^,]+),([^,]+),([^,]+),([^,]+),([^,]+),\[(.*)\]\)".
Definition re_obj : Re.regex := Re.compile pattern.

Definition field_names : list string :=
  ["Anchor"; "NoteName"; "Modifier"; "Octave";
   "Bar"; "Beat"; "Offset"; "Duration";
   "OnsetInBeats"; "OffsetInBeats"; "ScoreAttributesList"].

Record t : Type := {
  Anchor : PyVal;
  NoteName : PyVal;
  Modifier : PyVal;
  Octave : Z;
  Bar : PyVal;
  Beat : PyVal;
  Offset : PyVal;
  Duration : PyVal;
  OnsetInBeats : PyVal;
  OffsetInBeats : PyVal;
  ScoreAttributesList : list string
}.

Definition init (Anchor NoteName Modifier Octave Bar Beat Offset Duration
                 OnsetInBeats OffsetInBeats ScoreAttributesList : PyVal)
  : result t :=
  octave <- Py.int Octave ;;
  attrs <- match ScoreAttributesList with
           | PyList l => Ok l
           | PyStr s => Ok (Str.split "," s)
           | _ => Raise ValueError
           end ;;
  Ok {| Anchor := Anchor; NoteName := NoteName; Modifier := Modifier;
        Octave := octave; Bar := Bar; Beat := Beat; Offset := Offset;
        Duration := Duration; OnsetInBeats := OnsetInBeats;
        OffsetInBeats := OffsetInBeats; ScoreAttributesList := attrs |}.

(** [ScoreAttributesList] alone has a default, the empty list. *)
Definition new (kw : gmap string PyVal) : result t :=
  _ <- Py.bind_kwargs (removelast field_names) ["ScoreAttributesList"] kw ;;
  init (Py.arg kw "Anchor" PyNone) (Py.arg kw "NoteName" PyNone)
       (Py.arg kw "Modifier" PyNone) (Py.arg kw "Octave" PyNone)
       (Py.arg kw "Bar" PyNone) (Py.arg kw "Beat" PyNone)
       (Py.arg kw "Offset" PyNone) (Py.arg kw "Duration" PyNone)
       (Py.arg kw "OnsetInBeats" PyNone) (Py.arg kw "OffsetInBeats" PyNone)
       (Py.arg kw "ScoreAttributesList" (PyList [])).

Definition DurationSymbolic (self : t) : result PyVal :=
  match Duration self with
  | PyFloat _ | PyInt _ =>
      s <- Py.fraction_from_float_str (Duration self) ;; Ok (PyStr s)
  | PyStr s => Ok (PyStr s)
  | _ => Ok PyNone
  end.

Definition MidiPitch (self : t) : result (Z * Z) :=
  pitch_name_2_midi_PC (Modifier self) (NoteName self) (Octave self).

Definition matchline (self : t) : result string :=
  offset <- Py.fraction_from_float_str (Offset self) ;;
  duration <- DurationSymbolic self ;;
  Py.format out_pattern
    [("Anchor", Anchor self);
     ("NoteName", NoteName self);
     ("Modifier", Modifier self);
     ("Octave", PyInt (Octave self));
     ("Bar", Bar self);
     ("Beat", Beat self);
     ("Offset", PyStr offset);
     ("Duration", duration);
     ("OnsetInBeats", OnsetInBeats self);
     ("OffsetInBeats", OffsetInBeats self);
     ("ScoreAttributesList",
      PyStr (Str.join "," (ScoreAttributesList self)))].

Definition from_matchline (matchline : string) (pos : nat) : result t :=
  MatchLine.from_matchline re_obj field_names new matchline pos.

End MatchSnote.

(** ** The object store

    Objects that are mutated after their construction are kept in a
    store and named by their index; a computation threads the store and
    may raise.  [ReferenceError] marks a name that is not in the store,
    which no computation of the module produces. *)

Module Heap.

Definition ref : Set := nat.

Section Heap.
Context {O : Type}.

Definition M (A : Type) : Type := list O -> result A * list O.

Definition ret {A} (a : A) : M A := fun h => (Ok a, h).

Definition raise {A} (e : exn) : M A := fun h => (Raise e, h).

Definition bind {A B} (m : M A) (k : A -> M B) : M B :=
  fun h =>
    match m h with
    | (Ok a, h') => k a h'
    | (Raise e, h') => (Raise e, h')
    end.

Definition lift {A} (r : result A) : M A := fun h => (r, h).

(** a new object *)
Definition alloc (o : O) : M ref := fun h => (Ok (length h), h ++ [o]).

(** reading the object behind a name *)
Definition deref (r : ref) : M O :=
  fun h =>
    match h !! r with
    | Some o => (Ok o, h)
    | None => (Raise ReferenceError, h)
    end.

(** assigning to attributes of the object behind a name *)
Definition update (r : ref) (f : O -> O) : M unit :=
  fun h =>
    match h !! r with
    | Some o => (Ok tt, <[r := f o]> h)
    | None => (Raise ReferenceError, h)
    end.

End Heap.

End Heap.

Declare Scope heap_scope.
Delimit Scope heap_scope with heap.
Notation "x <~ m ;; k" := (Heap.bind m (fun x => k))
  (at level 100, m at next level, right associativity) : heap_scope.
Local Open Scope heap_scope.

(** The performed note part of a match line. *)
Module MatchPnote.

Definition out_pattern : string :=
  "note({Number},[{NoteName},{Modifier}],"
  +:+ "{Octave},{Onset},{Offset},{AdjOffset},{Velocity})".

Definition field_names : list string :=
  ["Number"; "NoteName"; "Modifier"; "Octave";
   "Onset"; "Offset"; "AdjOffset"; "Velocity"].
Definition pattern : string :=
  "note\(([^,]+),\[([^,]+),([^,]+)\],([^,]+),([^,]+),([^,]+),([^,]+),([^,]+)\)".

Definition re_obj : Re.regex := Re.compile pattern.

(** For backwards compatibility with Matchfile Version 1 *)
Definition field_names_v1 : list string :=
  ["Number"; "NoteName"; "Modifier"; "Octave";
   "Onset"; "Offset"; "Velocity"].
Definition pattern_v1 : string :=
  "note\(([^,]+),\[([^,]+),([^,]+)\],([^,]+),([^,]+),([^,]+),([^,]+)\)".
Definition re_obj_v1 : Re.regex := Re.compile pattern_v1.

(** The attributes of an instance; [MidiPitch] is set only when the
    constructor was given a MIDI pitch. *)
Record t : Type := {
  Number : PyVal;
  NoteName : PyVal;
  Modifier : PyVal;
  Octave : Z;
  MidiPitch : option (Z * Z);
  Onset : PyVal;
  Offset : PyVal;
  AdjOffset : PyVal;
  Velocity : Z;
  version : PyVal
}.

Definition M : Type -> Type := Heap.M (O := t).

(** Assignments to one attribute of an instance. *)
Definition set_NoteName (v : PyVal) (o : t) : t :=
  {| Number := Number o; NoteName := v; Modifier := Modifier o;
     Octave := Octave o; MidiPitch := MidiPitch o; Onset := Onset o;
     Offset := Offset o; AdjOffset := AdjOffset o;
     Velocity := Velocity o; version := version o |}.

Definition set_Modifier (v : PyVal) (o : t) : t :=
  {| Number := Number o; NoteName := NoteName o; Modifier := v;
     Octave := Octave o; MidiPitch := MidiPitch o; Onset := Onset o;
     Offset := Offset o; AdjOffset := AdjOffset o;
     Velocity := Velocity o; version := version o |}.

Definition set_Octave (v : Z) (o : t) : t :=
  {| Number := Number o; NoteName := NoteName o; Modifier := Modifier o;
     Octave := v; MidiPitch := MidiPitch o; Onset := Onset o;
     Offset := Offset o; AdjOffset := AdjOffset o;
     Velocity := Velocity o; version := version o |}.

(** [__init__]; the argument [MidiPitch] is [None] or an [int]. *)
Definition init (Number NoteName Modifier Octave Onset Offset AdjOffset
                 Velocity : PyVal) (MidiPitch : option Z) (version : PyVal)
  : result t :=
  (* check if all pitch spelling information was provided *)
  let has_pitch_spelling :=
    negb (Py.is_none NoteName || Py.is_none Modifier || Py.is_none Octave) in
  (* check if the MIDI pitch of the note was provided *)
  let has_midi_pitch := bool_decide (is_Some MidiPitch) in
  (* Raise an error if neither pitch spelling nor MIDI pitch were provided *)
  if negb has_pitch_spelling && negb has_midi_pitch then Raise ValueError
  else
    (* Set attributes regarding pitch spelling *)
    spelling <-
      (if has_pitch_spelling then
         (* Ensure that note name is uppercase *)
         up <- str_upper NoteName ;;
         if bool_decide (up ∈ NOTE_NAMES) then
           octave <- Py.int Octave ;;
           Ok (PyStr up, Modifier, octave)
         else Raise ValueError
       else
         (* infer the pitch information from the MIDI pitch *)
         let midi := default 0%Z MidiPitch in
         match PC_DICT !! (midi mod 12)%Z with
         | Some (name, modifier) =>
             Ok (PyStr name, PyStr modifier, (midi / 12 - 1)%Z)
         | None => Raise KeyError
         end) ;;
    let '(self_NoteName, self_Modifier, self_Octave) := spelling in
    (* Check if the provided MIDI pitch corresponds to the correct
       pitch spelling *)
    self_MidiPitch <-
      match MidiPitch with
      | Some midi =>
          pc <- pitch_name_2_midi_PC self_Modifier self_NoteName
                  self_Octave ;;
          if negb (midi =? fst pc)%Z then Raise ValueError
          else Ok (Some (midi, midi mod 12)%Z)
      | None => Ok None
      end ;;
    let self_AdjOffset := if Py.is_none AdjOffset then Offset else AdjOffset in
    velocity <- Py.int Velocity ;;
    Ok {| Number := Number;
          NoteName := self_NoteName;
          Modifier := self_Modifier;
          Octave := self_Octave;
          MidiPitch := self_MidiPitch;
          Onset := Onset;
          Offset := Offset;
          AdjOffset := self_AdjOffset;
          Velocity := velocity;
          version := version |}.

Definition midi_arg (v : PyVal) : result (option Z) :=
  match v with
  | PyNone => Ok None
  | PyInt n => Ok (Some n)
  | _ => Raise TypeError
  end.

(** The class called with keyword arguments: the eight fields are
    required, [MidiPitch] defaults to [None] and [version] to
    [LATEST_VERSION]; the instance is a new object. *)
Definition construct (kw : gmap string PyVal) : result t :=
  _ <- Py.bind_kwargs field_names ["MidiPitch"; "version"] kw ;;
  midi <- midi_arg (Py.arg kw "MidiPitch" PyNone) ;;
  init (Py.arg kw "Number" PyNone) (Py.arg kw "NoteName" PyNone)
       (Py.arg kw "Modifier" PyNone) (Py.arg kw "Octave" PyNone)
       (Py.arg kw "Onset" PyNone) (Py.arg kw "Offset" PyNone)
       (Py.arg kw "AdjOffset" PyNone) (Py.arg kw "Velocity" PyNone)
       midi (Py.arg kw "version" LATEST_VERSION).

Definition new (kw : gmap string PyVal) : M Heap.ref :=
  self <~ Heap.lift (construct kw) ;; Heap.alloc self.

Definition matchline_of (self : t) : result string :=
  Py.format out_pattern
    [("Number", Number self);
     ("NoteName", NoteName self);
     ("Modifier", Modifier self);
     ("Octave", PyInt (Octave self));
     ("Onset", Onset self);
     ("Offset", Offset self);
     ("AdjOffset", AdjOffset self);
     ("Velocity", PyInt (Velocity self))].

Definition matchline (self : Heap.ref) : M string :=
  o <~ Heap.deref self ;; Heap.lift (matchline_of o).

(** Create a MatchPnote from a line *)
Definition from_matchline (matchline : string) (pos : nat) : M Heap.ref :=
  match Re.search re_obj matchline pos with
  | None =>
      match Re.search re_obj_v1 matchline pos with
      | Some match_pattern =>
          groups <~ Heap.lift (MatchLine.interpret_groups match_pattern) ;;
          let kwargs := Py.dict_zip field_names_v1 groups in
          let kwargs := <["version" := PyFloat (Float.of_ratio 1 1)]> kwargs in
          let kwargs := <["AdjOffset" := PyNone]> kwargs in
          new kwargs
      | None => Heap.raise MatchError
      end
  | Some match_pattern =>
      groups <~ Heap.lift (MatchLine.interpret_groups match_pattern) ;;
      let kwargs := Py.dict_zip field_names groups in
      new kwargs
  end.

End MatchPnote.

(** A "match": a score note and the performed note paired with it. *)
Module MatchSnoteNote.

Definition out_pattern : string := "{SnoteLine}-{NoteLine}.".
Definition pattern : string :=
  MatchSnote.pattern +:+ "-" +:+ MatchPnote.pattern.
Definition re_obj : Re.regex := Re.compile pattern.
Definition field_names : list string :=
  MatchSnote.field_names ++ MatchPnote.field_names.

(** for version 1 *)
Definition pattern_v1 : string :=
  MatchPnote.pattern +:+ "-" +:+ MatchPnote.pattern_v1.
Definition re_obj_v1 : Re.regex := Re.compile pattern_v1.
Definition field_names_v1 : list string :=
  MatchSnote.field_names ++ MatchPnote.field_names_v1.

Record t : Type := { snote : MatchSnote.t; note : Heap.ref }.

(** [__init__]: the performed note is the caller's object, and its
    spelling attributes are assigned in place. *)
Definition init (snote : MatchSnote.t) (note : Heap.ref)
    (same_pitch_spelling : bool) : MatchPnote.M t :=
  let self := {| snote := snote; note := note |} in
  (* Set the same pitch spelling in both note and snote
     (this can break if the snote is not exactly matched
     to a note with the same pitch). Handle with care. *)
  if same_pitch_spelling then
    _ <~ Heap.update note
           (MatchPnote.set_NoteName (MatchSnote.NoteName snote)) ;;
    _ <~ Heap.update note
           (MatchPnote.set_Modifier (MatchSnote.Modifier snote)) ;;
    _ <~ Heap.update note
           (MatchPnote.set_Octave (MatchSnote.Octave snote)) ;;
    Heap.ret self
  else Heap.ret self.

Definition matchline (self : t) : MatchPnote.M string :=
  snote_line <~ Heap.lift (MatchSnote.matchline (snote self)) ;;
  note_line <~ MatchPnote.matchline (note self) ;;
  Heap.lift (Py.format out_pattern
               [("SnoteLine", PyStr snote_line);
                ("NoteLine", PyStr note_line)]).

Definition n_snote : nat := length MatchSnote.field_names.

Definition from_matchline (matchline : string) (pos : nat)
  : MatchPnote.M t :=
  match Re.search re_obj matchline 0 with
  | None =>
      match Re.search re_obj_v1 matchline pos with
      | Some match_pattern =>
          groups <~ Heap.lift (MatchLine.interpret_groups match_pattern) ;;
          let snote_kwargs :=
            Py.dict_zip MatchSnote.field_names (take n_snote groups) in
          let note_kwargs :=
            Py.dict_zip MatchPnote.field_names_v1 (drop n_snote groups) in
          let note_kwargs :=
            <["version" := PyFloat (Float.of_ratio 1 1)]> note_kwargs in
          let note_kwargs := <["AdjOffset" := PyNone]> note_kwargs in
          snote <~ Heap.lift (MatchSnote.new snote_kwargs) ;;
          note <~ MatchPnote.new note_kwargs ;;
          init snote note true
      | None => Heap.raise MatchError
      end
  | Some match_pattern =>
      groups <~ Heap.lift (MatchLine.interpret_groups match_pattern) ;;
      let snote_kwargs :=
        Py.dict_zip MatchSnote.field_names (take n_snote groups) in
      let note_kwargs :=
        Py.dict_zip MatchPnote.field_names (drop n_snote groups) in
      snote <~ Heap.lift (MatchSnote.new snote_kwargs) ;;
      note <~ MatchPnote.new note_kwargs ;;
      init snote note true
  end.

End MatchSnoteNote.

Module MatchSnoteDeletion.

Definition out_pattern : string := "{SnoteLine}-deletion.".
Definition pattern : string := MatchSnote.pattern +:+ "-deletion\.".
Definition re_obj : Re.regex := Re.compile pattern.
Definition field_names : list string := MatchSnote.field_names.

Record t : Type := { snote : MatchSnote.t }.

Definition init (snote : MatchSnote.t) : t := {| snote := snote |}.

Definition matchline (self : t) : result string :=
  snote_line <- MatchSnote.matchline (snote self) ;;
  Py.format out_pattern [("SnoteLine", PyStr snote_line)].

Definition from_matchline (matchline : string) (pos : nat) : result t :=
  match Re.search re_obj matchline 0 with
  | Some match_pattern =>
      groups <- MatchLine.interpret_groups match_pattern ;;
      let snote_kwargs := Py.dict_zip MatchSnote.field_names groups in
      snote <- MatchSnote.new snote_kwargs ;;
      Ok (init snote)
  | None => Raise MatchError
  end.

End MatchSnoteDeletion.

Module MatchInsertionNote.

Definition out_pattern : string := "insertion-{NoteLine}.".
Definition pattern : string := "insertion-" +:+ MatchPnote.pattern +:+ ".".
Definition re_obj : Re.regex := Re.compile pattern.
Definition field_names : list string := MatchPnote.field_names.

(** The instance keeps the note and a copy of each of its fields as
    they are when the line is built. *)
Record t : Type := {
  note : Heap.ref;
  Number : PyVal;
  NoteName : PyVal;
  Modifier : PyVal;
  Octave : Z;
  Onset : PyVal;
  Offset : PyVal;
  AdjOffset : PyVal;
  Velocity : Z
}.

Definition init (note : Heap.ref) : MatchPnote.M t :=
  o <~ Heap.deref note ;;
  Heap.ret {| note := note;
              Number := MatchPnote.Number o;
              NoteName := MatchPnote.NoteName o;
              Modifier := MatchPnote.Modifier o;
              Octave := MatchPnote.Octave o;
              Onset := MatchPnote.Onset o;
              Offset := MatchPnote.Offset o;
              AdjOffset := MatchPnote.AdjOffset o;
              Velocity := MatchPnote.Velocity o |}.

Definition matchline (self : t) : MatchPnote.M string :=
  note_line <~ MatchPnote.matchline (note self) ;;
  Heap.lift (Py.format out_pattern [("NoteLine", PyStr note_line)]).

Definition from_matchline (matchline : string) (pos : nat)
  : MatchPnote.M t :=
  match MatchLine.match_pattern re_obj matchline 0 with
  | Some match_pattern =>
      groups <~ Heap.lift (MatchLine.interpret_groups match_pattern) ;;
      let note_kwargs := Py.dict_zip MatchPnote.field_names groups in
      note <~ MatchPnote.new note_kwargs ;;
      init note
  | None => Heap.raise MatchError
  end.

End MatchInsertionNote.

(** A sustain pedal line *)
Module MatchSustainPedal.

Definition out_pattern : string := "sustain({Time},{Value}).".
Definition field_names : list string := ["Time"; "Value"].
Definition pattern : string := "sustain\(\s*([^,]*)\s*,\s*([^,]*)\s*\)\.".
Definition re_obj : Re.regex := Re.compile pattern.

Record t : Type := { Time : PyVal; Value : PyVal }.

Definition init (Time Value : PyVal) : t :=
  {| Time := Time; Value := Value |}.

Definition new (kw : gmap string PyVal) : result t :=
  _ <- Py.bind_kwargs field_names [] kw ;;
  Ok (init (Py.arg kw "Time" PyNone) (Py.arg kw "Value" PyNone)).

Definition matchline (self : t) : result string :=
  Py.format out_pattern [("Time", Time self); ("Value", Value self)].

Definition from_matchline (matchline : string) (pos : nat) : result t :=
  MatchLine.from_matchline re_obj field_names new matchline pos.

End MatchSustainPedal.

(** A soft pedal line *)
Module MatchSoftPedal.

Definition out_pattern : string := "soft({Time},{Value}).".
Definition field_names : list string := ["Time"; "Value"].
Definition pattern : string := "soft\(\s*([^,]*)\s*,\s*([^,]*)\s*\)\.".
Definition re_obj : Re.regex := Re.compile pattern.

Record t : Type := { Time : PyVal; Value : PyVal }.

Definition init (Time Value : PyVal) : t :=
  {| Time := Time; Value := Value |}.

Definition new (kw : gmap string PyVal) : result t :=
  _ <- Py.bind_kwargs field_names [] kw ;;
  Ok (init (Py.arg kw "Time" PyNone) (Py.arg kw "Value" PyNone)).

Definition matchline (self : t) : result string :=
  Py.format out_pattern [("Time", Time self); ("Value", Value self)].

Definition from_matchline (matchline : string) (pos : nat) : result t :=
  MatchLine.from_matchline re_obj field_names new matchline pos.

End MatchSoftPedal.

(** ** The dispatcher *)

(** What [parse_matchline] can return: an instance of one of the seven
    line classes, or [False]. *)
Inductive match_line : Type :=
| SnoteNoteLine (l : MatchSnoteNote.t)
| SnoteDeletionLine (l : MatchSnoteDeletion.t)
| InsertionNoteLine (l : MatchInsertionNote.t)
| SustainPedalLine (l : MatchSustainPedal.t)
| SoftPedalLine (l : MatchSoftPedal.t)
| InfoLine (l : MatchInfo.t)
| MetaLine (l : MatchMeta.t).

Inductive parsed : Type :=
| PyFalse
| Line (l : match_line).

Definition method : Type := string -> MatchPnote.M match_line.

Definition pure_method {A} (f : string -> nat -> result A)
    (wrap : A -> match_line) : method :=
  fun l => r <~ Heap.lift (f l 0%nat) ;; Heap.ret (wrap r).

Definition heap_method {A} (f : string -> nat -> MatchPnote.M A)
    (wrap : A -> match_line) : method :=
  fun l => r <~ f l 0%nat ;; Heap.ret (wrap r).

Definition from_matchline_methods : list method :=
  [heap_method MatchSnoteNote.from_matchline SnoteNoteLine;
   pure_method MatchSnoteDeletion.from_matchline SnoteDeletionLine;
   heap_method MatchInsertionNote.from_matchline InsertionNoteLine;
   pure_method MatchSustainPedal.from_matchline SustainPedalLine;
   pure_method MatchSoftPedal.from_matchline SoftPedalLine;
   pure_method MatchInfo.from_matchline InfoLine;
   pure_method MatchMeta.from_matchline MetaLine].

(** The loop of [parse_matchline]: the first method that returns wins,
    [MatchError] moves on to the next method, any other exception
    leaves the loop and the function. *)
Fixpoint try_methods (methods : list method) (l : string)
  : MatchPnote.M parsed :=
  match methods with
  | [] => Heap.ret PyFalse
  | from_matchline :: rest =>
      fun h =>
        match from_matchline l h with
        | (Ok matchline, h') => (Ok (Line matchline), h')
        | (Raise MatchError, h') => try_methods rest l h'
        | (Raise e, h') => (Raise e, h')
        end
  end.

Definition parse_matchline (l : string) : MatchPnote.M parsed :=
  try_methods from_matchline_methods l.

(** [mo.matchline] on whatever [parse_matchline] returned; [False] has
    no such attribute. *)
Definition matchline (mo : parsed) : MatchPnote.M string :=
  match mo with
  | PyFalse => Heap.raise AttributeError
  | Line (SnoteNoteLine l) => MatchSnoteNote.matchline l
  | Line (SnoteDeletionLine l) => Heap.lift (MatchSnoteDeletion.matchline l)
  | Line (InsertionNoteLine l) => MatchInsertionNote.matchline l
  | Line (SustainPedalLine l) => Heap.lift (MatchSustainPedal.matchline l)
  | Line (SoftPedalLine l) => Heap.lift (MatchSoftPedal.matchline l)
  | Line (InfoLine l) => Heap.lift (MatchInfo.matchline l)
  | Line (MetaLine l) => Heap.lift (MatchMeta.matchline l)
  end.

(** Parsing a line in a fresh store and serialising the result. *)
Definition roundtrip (l : string) : result string :=
  fst ((mo <~ parse_matchline l ;; matchline mo) []).

(** ** The literal lines of the module's self-test *)

Definition snote_line : string :=
  "snote(1-1,[E,n],4,0:1,0,1/4,-1.0,0.0,[staff1])".
Definition note_line : string := "note(0,[E,n],4,471720,472397,472397,49)".
Definition old_note_line : string := "note(0,[E,n],4,471720,472397,49)".
Definition snote_note_line : string :=
  "snote(1-1,[E,n],4,0:1,0,1/4,-1.0,0.0,[staff1])-note(0,[E,n],4,471720,472397,472397,49).".
Definition snote_oldnote_line : string :=
  snote_line +:+ "-" +:+ old_note_line +:+ ".".
Definition snote_deletion_line : string :=
  "snote(1-1,[E,n],4,0:1,0,1/4,-1.0,0.0,[staff1])-deletion.".
Definition note_insertion_line : string :=
  "insertion-" +:+ note_line +:+ ".".
Definition info_line : string := "info(matchFileVersion,4.0).".
Definition meta_line : string := "meta(keySignature,C Maj/A min,0,-1.0).".
Definition sustain_line : string := "sustain(779,59).".

(** The lines the self-test parses and compares with their serialisation. *)
Definition matchlines : list string :=
  [snote_note_line; snote_deletion_line; note_insertion_line;
   info_line; meta_line; sustain_line].

(** The performed note that [note_line] and [old_note_line] describe. *)
Definition example_pnote (version : PyVal) : MatchPnote.t :=
  {| MatchPnote.Number := PyInt 0;
     MatchPnote.NoteName := PyStr "E";
     MatchPnote.Modifier := PyStr "n";
     MatchPnote.Octave := 4;
     MatchPnote.MidiPitch := None;
     MatchPnote.Onset := PyInt 471720;
     MatchPnote.Offset := PyInt 472397;
     MatchPnote.AdjOffset := PyInt 472397;
     MatchPnote.Velocity := 49;
     MatchPnote.version := version |}.

(** The store passes every method that raises [MatchError]. *)
Fixpoint skips (methods : list method) (l : string)
    (h h' : list MatchPnote.t) : Prop :=
  match methods with
  | [] => h' = h
  | f :: rest => exists h1, f l h = (Raise MatchError, h1) /\ skips rest l h1 h'
  end.

(** The outcome of one method as the dispatcher hands it on. *)
Definition handed_on (r : result match_line) : result parsed :=
  match r with
  | Ok m => Ok (Line m)
  | Raise e => Raise e
  end.

(** The characters an atom accepts all satisfy [p]. *)
Definition atom_within (p : ascii -> bool) (a : Re.atom) : Prop :=
  forall c, Re.atom_ok a c = true -> p c = true.

Definition item_within (p : ascii -> bool) (it : Re.item) : Prop :=
  match it with
  | Re.IOne a | Re.IStar a | Re.IPlus a => atom_within p a
  | _ => True
  end.

(** The pattern ends with [$]. *)
Definition ends_eol (r : Re.regex) : bool :=
  match last r with
  | Some Re.IEol => true
  | _ => false
  end.

Definition not_plus (c : ascii) : bool := negb (Ascii.eqb c "+").

(** A score note and a store for the instances of the theorems. *)
Definition example_snote : MatchSnote.t :=
  {| MatchSnote.Anchor := PyStr "1-1";
     MatchSnote.NoteName := PyStr "F";
     MatchSnote.Modifier := PyStr "#";
     MatchSnote.Octave := 5;
     MatchSnote.Bar := PyInt 0;
     MatchSnote.Beat := PyInt 1;
     MatchSnote.Offset := PyInt 0;
     MatchSnote.Duration := PyFloat (Float.of_ratio 1 4);
     MatchSnote.OnsetInBeats := PyFloat (Float.of_ratio (-1) 1);
     MatchSnote.OffsetInBeats := PyFloat (S754_zero false);
     MatchSnote.ScoreAttributesList := ["staff1"] |}.

(** [consumed p e i s j]: going from position [i] to [j] takes a prefix
    of [s] whose characters satisfy [p] and leaves a rest that
    satisfies [e]. *)
Definition consumed (p : ascii -> bool) (e : string -> Prop)
    (i : nat) (s : string) (j : nat) : Prop :=
  exists n, j = (i + n)%nat /\ (n <= String.length s)%nat
            /\ Str.forallb p (Str.take n s) = true
            /\ e (Str.drop n s).

(** If the pattern ends with [$], the text left is at its end. *)
Definition eol_ok (r : Re.regex) (t : string) : Prop :=
  ends_eol r = true -> Re.at_end t = true.

(** The set [[0-9]] of the rational pattern. *)
Definition digit_atom : Re.atom := Re.ASet false [Re.CRange "0" "9"].

(** The number of capturing groups of a pattern. *)
Fixpoint count_groups (r : Re.regex) : nat :=
  match r with
  | [] => 0
  | Re.IClose :: r' => S (count_groups r')
  | _ :: r' => count_groups r'
  end.

(** [d] is a power of two. *)
Definition power_of_two (d : Z) : Prop := exists k : nat, d = (2 ^ Z.of_nat k)%Z.

(** ** What an instance holds of the tokens of its line *)

(** What an instance holds for one of its [field_names], against the
    value [v] that the field interpreter made of the token. *)
Inductive held : Type :=
| Kept (x : PyVal)
| UpperCased (x : PyVal)
| Converted (n : Z)
| Pieces (parts : list string)
| Overwritten (x : PyVal).

(** The class attribute [re_obj] of a parsed line. *)
Definition re_obj_of (mo : match_line) : Re.regex :=
  match mo with
  | SnoteNoteLine _ => MatchSnoteNote.re_obj
  | SnoteDeletionLine _ => MatchSnoteDeletion.re_obj
  | InsertionNoteLine _ => MatchInsertionNote.re_obj
  | SustainPedalLine _ => MatchSustainPedal.re_obj
  | SoftPedalLine _ => MatchSoftPedal.re_obj
  | InfoLine _ => MatchInfo.re_obj
  | MetaLine _ => MatchMeta.re_obj
  end.

(** The attributes of a score note, in the order of its [field_names]:
    [__init__] keeps each argument, but [Octave] as [int(Octave)] and
    [ScoreAttributesList] as the pieces of the text between commas. *)
Definition snote_fields (s : MatchSnote.t) : list held :=
  [Kept (MatchSnote.Anchor s); Kept (MatchSnote.NoteName s);
   Kept (MatchSnote.Modifier s); Converted (MatchSnote.Octave s);
   Kept (MatchSnote.Bar s); Kept (MatchSnote.Beat s);
   Kept (MatchSnote.Offset s); Kept (MatchSnote.Duration s);
   Kept (MatchSnote.OnsetInBeats s); Kept (MatchSnote.OffsetInBeats s);
   Pieces (MatchSnote.ScoreAttributesList s)].

(** The attributes of the performed note of a pair: the pairing has
    assigned the spelling of the score note to it. *)
Definition paired_fields (o : MatchPnote.t) : list held :=
  [Kept (MatchPnote.Number o); Overwritten (MatchPnote.NoteName o);
   Overwritten (MatchPnote.Modifier o);
   Overwritten (PyInt (MatchPnote.Octave o));
   Kept (MatchPnote.Onset o); Kept (MatchPnote.Offset o);
   Kept (MatchPnote.AdjOffset o); Converted (MatchPnote.Velocity o)].

(** The attributes of an insertion line, copied from its note:
    [MatchPnote.__init__] keeps each argument, but [NoteName] in upper
    case and [Octave] and [Velocity] through [int]. *)
Definition insertion_fields (p : MatchInsertionNote.t) : list held :=
  [Kept (MatchInsertionNote.Number p);
   UpperCased (MatchInsertionNote.NoteName p);
   Kept (MatchInsertionNote.Modifier p);
   Converted (MatchInsertionNote.Octave p);
   Kept (MatchInsertionNote.Onset p); Kept (MatchInsertionNote.Offset p);
   Kept (MatchInsertionNote.AdjOffset p);
   Converted (MatchInsertionNote.Velocity p)].

(** What a parsed line holds for the names of its class's
    [field_names], in that order; for a pair, the attributes of its
    score note and then those of its performed note in the store. *)
Definition stored_fields (mo : match_line) (h : list MatchPnote.t)
  : list held :=
  match mo with
  | SnoteNoteLine p =>
      snote_fields (MatchSnoteNote.snote p)
      ++ match h !! MatchSnoteNote.note p with
         | Some o => paired_fields o
         | None => []
         end
  | SnoteDeletionLine p => snote_fields (MatchSnoteDeletion.snote p)
  | InsertionNoteLine p => insertion_fields p
  | SustainPedalLine p =>
      [Kept (MatchSustainPedal.Time p); Kept (MatchSustainPedal.Value p)]
  | SoftPedalLine p =>
      [Kept (MatchSoftPedal.Time p); Kept (MatchSoftPedal.Value p)]
  | InfoLine p => [Kept (MatchInfo.Attribute p); Kept (MatchInfo.Value p)]
  | MetaLine p =>
      [Kept (MatchMeta.Attribute p); Kept (MatchMeta.Value p);
       Kept (MatchMeta.Bar p); Kept (MatchMeta.TimeInBeats p)]
  end.

(** [stored_as token f]: the token went through the field interpreter
    of the line classes, additions disabled, and [f] is what the
    constructor made of the value.  A token with a plus sign is read by
    [interpret_field] alone: it is the text itself unless the whole
    token is an [int] or [float] literal. *)
Definition stored_as (token : string) (f : held) : Prop :=
  exists v,
    MatchLine.field_interpreter token = Ok v
    /\ (Str.contains "+" token = true ->
        v = interpret_field token
        /\ (Py.int_of_string token = None ->
            Float.of_string token = None -> v = PyStr token))
    /\ match f with
       | Kept x => x = v
       | UpperCased x => exists up, str_upper v = Ok up /\ x = PyStr up
       | Converted n => Py.int v = Ok n
       | Pieces parts => v = PyStr token /\ parts = Str.split "," token
       | Overwritten _ => True
       end.

(** ** More of the module: derived durations, the rational text class,
    the ornament line and the file container *)

(** [a - b] on numbers. *)
Definition py_sub (a b : PyVal) : result PyVal :=
  match a, b with
  | PyInt m, PyInt n => Ok (PyInt (m - n))
  | PyInt m, PyFloat y =>
      x <- Float.of_int m ;;
      Ok (PyFloat (SFsub Float.prec Float.emax x y))
  | PyFloat x, PyInt n =>
      y <- Float.of_int n ;;
      Ok (PyFloat (SFsub Float.prec Float.emax x y))
  | PyFloat x, PyFloat y => Ok (PyFloat (SFsub Float.prec Float.emax x y))
  | _, _ => Raise TypeError
  end.

(** The derived properties of the note classes. *)
Module Durations.

(** [MatchSnote.DurationInBeats] *)
Definition DurationInBeats (self : MatchSnote.t) : result PyVal :=
  py_sub (MatchSnote.OffsetInBeats self) (MatchSnote.OnsetInBeats self).

(** [MatchPnote.Duration] *)
Definition Duration (self : MatchPnote.t) : result PyVal :=
  py_sub (MatchPnote.Offset self) (MatchPnote.Onset self).

(** [MatchPnote.AdjDuration] *)
Definition AdjDuration (self : MatchPnote.t) : result PyVal :=
  py_sub (MatchPnote.AdjOffset self) (MatchPnote.Onset self).

End Durations.

(** The class [Ratio]: the two integers of a text [n/d].  Whatever
    goes wrong (a piece that [int] does not read, more or fewer than
    two pieces) is caught and raised again as
    [ParseRationalException], which keeps the text. *)
Module Ratio.

Inductive t : Type :=
| Ratio (numerator denominator : Z)
| ParseRationalException (string : string).

Definition init (string : string) : t :=
  match List.map Py.int_of_string (Str.split "/" string) with
  | [Some numerator; Some denominator] => Ratio numerator denominator
  | _ => ParseRationalException string
  end.

End Ratio.

(** The exceptions of the code below that the line classes of the
    dispatcher never raise. *)
Inductive exn_more : Set :=
| Core (e : exn)
| IndexError
| NameError.

Inductive outcome (A : Type) : Type :=
| Returns (a : A)
| Raises (e : exn_more).
Arguments Returns {A} a.
Arguments Raises {A} e.

Definition of_result {A} (r : result A) : outcome A :=
  match r with
  | Ok a => Returns a
  | Raise e => Raises (Core e)
  end.

(** An ornament line: an anchor and the performed note that realises
    the ornament.  The class is not among the methods of
    [parse_matchline]. *)
Module MatchOrnamentNote.

Definition out_pattern : string := "ornament({Anchor})-{PnoteLine}".
Definition field_names : list string := "Anchor" :: MatchPnote.field_names.
Definition pattern : string := "ornament\([^\)]*\)-" +:+ MatchPnote.pattern.
Definition re_obj : Re.regex := Re.compile pattern.

Record t : Type := { Anchor : PyVal; pnote : Heap.ref }.

(** [__init__(self, anchor, pnote)] *)
Definition init (anchor : PyVal) (pnote : Heap.ref) : t :=
  {| Anchor := anchor; pnote := pnote |}.

Definition matchline (self : t) : MatchPnote.M string :=
  pnote_line <~ MatchPnote.matchline (pnote self) ;;
  Heap.lift (Py.format out_pattern
               [("Anchor", Anchor self); ("PnoteLine", PyStr pnote_line)]).

(** The names of the parameters of [__init__]. *)
Definition init_parameters : list string := ["anchor"; "pnote"].

(** The class called with the keywords [given]: a keyword that is no
    parameter is a [TypeError]. *)
Definition new (given : list string) (anchor : PyVal) (pnote : Heap.ref)
  : result t :=
  if forallb (fun k => bool_decide (k ∈ init_parameters)) given
     && forallb (fun p => bool_decide (p ∈ given)) init_parameters
  then Ok (init anchor pnote) else Raise TypeError.

(** [MatchPnote] called with a list after the double star: such a call
    needs a mapping and raises [TypeError] before the constructor
    runs. *)
Definition MatchPnote_of_list (pnote_kwargs : list PyVal)
  : MatchPnote.M Heap.ref :=
  Heap.raise TypeError.

Definition from_matchline (matchline : string) (pos : nat)
    (h : list MatchPnote.t) : outcome t * list MatchPnote.t :=
  match MatchLine.match_pattern re_obj matchline 0 with
  | Some match_pattern =>
      match MatchLine.interpret_groups match_pattern with
      | Ok groups =>
          let pnote_kwargs := drop 1 groups in
          match groups with
          | anchor :: _ =>
              match MatchPnote_of_list pnote_kwargs h with
              | (Ok pnote, h') =>
                  (of_result (new ["Anchor"; "pnote"] anchor pnote), h')
              | (Raise e, h') => (Raises (Core e), h')
              end
          | [] => (Raises IndexError, h)
          end
      | Raise e => (Raises (Core e), h)
      end
  | None => (Raises (Core MatchError), h)
  end.

End MatchOrnamentNote.

(** [str.strip()]: the text without the white space at its two ends. *)
Fixpoint lstrip_space (s : string) : string :=
  match s with
  | EmptyString => EmptyString
  | String c s' => if Str.is_space c then lstrip_space s' else s
  end.

Definition str_strip (s : string) : string :=
  Str.rev (lstrip_space (Str.rev (lstrip_space s))).

(** The container of the lines of a match file.  Opening the file and
    decoding its bytes are left to the caller: [decoded] is the list of
    the decoded lines. *)
Module MatchFile.

Record t : Type := { name : string; lines : list parsed }.

(** [[parse_matchline(l) for l in fileData]] *)
Fixpoint parse_all (fileData : list string) : MatchPnote.M (list parsed) :=
  match fileData with
  | [] => Heap.ret []
  | l :: rest =>
      mo <~ parse_matchline l ;;
      mos <~ parse_all rest ;;
      Heap.ret (mo :: mos)
  end.

Definition init (filename : string) (decoded : list string)
  : MatchPnote.M t :=
  let fileData := List.map str_strip decoded in
  lines <~ parse_all fileData ;;
  Heap.ret {| name := filename; lines := lines |}.

(** [note_pairs]: the comprehension tests each line against
    [SnoteNoteLine], a name the module does not define. *)
Definition note_pairs (self : t) : outcome (list (MatchSnote.t * Heap.ref)) :=
  match lines self with
  | [] => Returns []
  | _ :: _ => Raises NameError
  end.

End MatchFile.

(** * Properties *)

(** ** The runtime model *)

(** Every pattern of the module lies in the fragment [Re.compile] reads. *)
Lemma patterns_compile :
  Forall (fun p => is_Some (Re.parse p Re.MTop 0 []))
    ["^([0-9]+)/([0-9]+)$"; MatchInfo.pattern; MatchMeta.pattern;
     MatchSnote.pattern; MatchPnote.pattern; MatchPnote.pattern_v1;
     MatchSnoteNote.pattern; MatchSnoteNote.pattern_v1;
     MatchSnoteDeletion.pattern; MatchInsertionNote.pattern;
     MatchSustainPedal.pattern; MatchSoftPedal.pattern].
Proof. repeat constructor; vm_compute; eauto. Qed.

Lemma rational_pattern_items :
  rational_pattern
  = [Re.IBol; Re.IOpen; Re.IPlus digit_atom; Re.IClose;
     Re.IOne (Re.AChar "/"); Re.IOpen; Re.IPlus digit_atom; Re.IClose;
     Re.IEol].
Proof. reflexivity. Qed.

(** With [allow_additions=False] the recursion depth is never used. *)
Lemma interpret_field_rational_rec_false (d : nat) (data : string) :
  interpret_field_rational_rec d data false
  = interpret_field_rational_rec 0 data false.
Proof. destruct d; reflexivity. Qed.

(** One level of recursion is all the source can use: more depth gives
    the same result. *)
Lemma interpret_field_rational_depth (d : nat) (data : string) (b : bool) :
  interpret_field_rational_rec (S d) data b = interpret_field_rational data b.
Proof.
  unfold interpret_field_rational. simpl.
  destruct (interpret_field data); try reflexivity.
  destruct (Re.match_ rational_pattern s); try reflexivity.
  destruct b; try reflexivity.
  destruct (1 <? length (Str.split "+" s))%nat; try reflexivity.
  replace (mapR (fun i => interpret_field_rational_rec d i false)
             (Str.split "+" s))
    with (mapR (fun i => interpret_field_rational_rec 0 i false)
            (Str.split "+" s)); [reflexivity|].
  induction (Str.split "+" s) as [|a l IH]; [reflexivity|].
  cbn [mapR]. rewrite (interpret_field_rational_rec_false d a), IH.
  reflexivity.
Qed.

Lemma mapR_length {A B} (f : A -> result B) (l : list A) (l' : list B) :
  mapR f l = Ok l' -> length l' = length l.
Proof.
  revert l'. induction l as [|a l IH]; intros l'; simpl.
  - intros [= <-]. reflexivity.
  - destruct (f a) as [b|e]; simpl; [|discriminate].
    destruct (mapR f l) as [bs|e]; simpl; [|discriminate].
    intros [= <-]. simpl. f_equal. apply IH. reflexivity.
Qed.

(** ** Strings *)

Lemma take_drop_existsb (p : ascii -> bool) (n : nat) (s : string) :
  Str.existsb p s
  = Str.existsb p (Str.take n s) || Str.existsb p (Str.drop n s).
Proof.
  revert s. induction n as [|n IH]; intros s.
  - destruct s; reflexivity.
  - destruct s as [|c s]; [reflexivity|]. simpl. rewrite (IH s).
    apply orb_assoc.
Qed.

Lemma forallb_not_existsb (p q : ascii -> bool) (s : string) :
  (forall c, p c = true -> q c = false) ->
  Str.forallb p s = true -> Str.existsb q s = false.
Proof.
  intros Hpq. induction s as [|c s IH]; simpl; [reflexivity|].
  intros [Hc Hs]%andb_prop. rewrite (Hpq c Hc), (IH Hs). reflexivity.
Qed.

Lemma forallb_weaken (p q : ascii -> bool) (s : string) :
  (forall c, p c = true -> q c = true) ->
  Str.forallb p s = true -> Str.forallb q s = true.
Proof.
  intros Hpq. induction s as [|c s IH]; simpl; [reflexivity|].
  intros [Hc Hs]%andb_prop. rewrite (Hpq c Hc), (IH Hs). reflexivity.
Qed.

Lemma str_drop_drop (n1 n2 : nat) (s : string) :
  Str.drop n2 (Str.drop n1 s) = Str.drop (n1 + n2) s.
Proof.
  revert s. induction n1 as [|n1 IH]; intros s; [reflexivity|].
  destruct s as [|c s]; simpl; [destruct n2; reflexivity|apply IH].
Qed.

Lemma str_length_drop (n : nat) (s : string) :
  String.length (Str.drop n s) = (String.length s - n)%nat.
Proof.
  revert s. induction n as [|n IH]; intros s; simpl; [lia|].
  destruct s as [|c s]; simpl; [reflexivity|apply IH].
Qed.

Lemma str_drop_succ (n : nat) (s : string) (c : ascii) (t : string) :
  Str.drop n s = String c t -> Str.drop (S n) s = t.
Proof.
  intros H. replace (S n) with (n + 1)%nat by lia.
  rewrite <- str_drop_drop, H. reflexivity.
Qed.

Lemma forallb_take_add (p : ascii -> bool) (n1 n2 : nat) (s : string) :
  Str.forallb p (Str.take n1 s) = true ->
  Str.forallb p (Str.take n2 (Str.drop n1 s)) = true ->
  Str.forallb p (Str.take (n1 + n2) s) = true.
Proof.
  revert s. induction n1 as [|n1 IH]; intros s; simpl; [auto|].
  destruct s as [|c s]; simpl.
  - intros _ _. destruct (n1 + n2)%nat; reflexivity.
  - intros [Hc Hs]%andb_prop H2. rewrite Hc. simpl. apply IH; assumption.
Qed.

Lemma rev_onto_forallb (p : ascii -> bool) (s acc : string) :
  Str.forallb p (Str.rev_onto s acc) = Str.forallb p s && Str.forallb p acc.
Proof.
  revert acc. induction s as [|c s IH]; intros acc; simpl; [reflexivity|].
  rewrite IH. simpl. destruct (p c), (Str.forallb p s); reflexivity.
Qed.

Lemma rev_onto_rev_onto (s a b : string) :
  Str.rev_onto (Str.rev_onto s a) b = Str.rev_onto a (s +:+ b).
Proof.
  revert a b. induction s as [|c s IH]; intros a b; simpl; [reflexivity|].
  rewrite IH. reflexivity.
Qed.

Lemma str_append_empty_r (s : string) : s +:+ EmptyString = s.
Proof.
  induction s as [|c s IH]; [reflexivity|].
  change (String c (s +:+ EmptyString) = String c s). rewrite IH. reflexivity.
Qed.

Lemma str_rev_rev (s : string) : Str.rev (Str.rev s) = s.
Proof.
  unfold Str.rev. rewrite rev_onto_rev_onto. simpl.
  apply str_append_empty_r.
Qed.

(** What the module needs to know about a decimal digit. *)
Lemma digit_props (c : ascii) :
  Str.is_digit c = true ->
  Str.is_blank c = false
  /\ Ascii.eqb c "_" = false
  /\ Ascii.eqb c "-" = false
  /\ Ascii.eqb c "+" = false
  /\ Str.lower_char c = c
  /\ Ascii.eqb c "i" = false
  /\ Ascii.eqb c "n" = false
  /\ Ascii.eqb c "." = false.
Proof.
  destruct c as [[] [] [] [] [] [] [] []]; vm_compute; intros;
    try discriminate; repeat split; reflexivity.
Qed.

Lemma lstrip_digits (s : string) :
  Str.forallb Str.is_digit s = true -> Str.lstrip s = s.
Proof.
  destruct s as [|c s]; simpl; [reflexivity|].
  intros [Hc _]%andb_prop. destruct (digit_props c Hc) as (-> & _).
  reflexivity.
Qed.

Lemma strip_digits (s : string) :
  Str.forallb Str.is_digit s = true -> Str.strip s = s.
Proof.
  intros Hs. unfold Str.strip. rewrite (lstrip_digits s Hs).
  rewrite lstrip_digits; [apply str_rev_rev|].
  unfold Str.rev. rewrite rev_onto_forallb, Hs. reflexivity.
Qed.

Lemma split_go_absent (sep : ascii) (s cur : string) :
  Str.forallb (fun c => negb (Ascii.eqb c sep)) s = true ->
  Str.split_go sep s cur = [Str.rev_onto cur s].
Proof.
  revert cur. induction s as [|c s IH]; intros cur; simpl; [reflexivity|].
  intros [Hc Hs]%andb_prop.
  destruct (Ascii.eqb c sep); [discriminate|]. rewrite IH by assumption.
  reflexivity.
Qed.

Lemma remove_digits (s : string) :
  Str.forallb Str.is_digit s = true -> Str.remove "_" s = s.
Proof.
  intros Hs. unfold Str.remove, Str.split.
  rewrite split_go_absent; [reflexivity|].
  eapply forallb_weaken; [|exact Hs].
  intros c Hc. destruct (digit_props c Hc) as (_ & -> & _). reflexivity.
Qed.

Lemma span_digits_all (s : string) :
  Str.forallb Str.is_digit s = true -> Str.span_digits s = (s, EmptyString).
Proof.
  induction s as [|c s IH]; simpl; [reflexivity|].
  intros [Hc Hs]%andb_prop. rewrite Hc, (IH Hs). reflexivity.
Qed.

Lemma lower_digits (s : string) :
  Str.forallb Str.is_digit s = true -> Str.lower s = s.
Proof.
  unfold Str.lower. induction s as [|c s IH]; simpl; [reflexivity|].
  intros [Hc Hs]%andb_prop. rewrite (IH Hs).
  destruct (digit_props c Hc) as (_ & _ & _ & _ & -> & _). reflexivity.
Qed.

(** ** Floats *)

Lemma underscores_ok_digits (prev : ascii) (s : string) :
  Str.forallb Str.is_digit s = true ->
  Ascii.eqb prev "_" = false ->
  Float.underscores_ok prev s = true.
Proof.
  revert prev. induction s as [|c s IH]; intros prev; simpl.
  - intros _ ->. reflexivity.
  - intros [Hc Hs]%andb_prop Hp.
    destruct (digit_props c Hc) as (_ & Hu & _).
    rewrite Hu, Hp. simpl. apply IH; assumption.
Qed.

(** [float(s)] of a non-empty run of digits is its value, rounded:
    the call does not raise. *)
Lemma float_of_digits (c : ascii) (s : string) :
  Str.forallb Str.is_digit (String c s) = true ->
  Float.of_string (String c s)
  = Some (Float.of_decimal false (Str.digits_value 0 (String c s)) 0).
Proof.
  intros Hs. unfold Float.of_string.
  rewrite (strip_digits _ Hs).
  rewrite (underscores_ok_digits "000" _ Hs eq_refl). cbn [negb].
  rewrite (remove_digits _ Hs).
  pose proof Hs as Hs'. simpl in Hs'. apply andb_prop in Hs' as [Hc Hs'].
  destruct (digit_props c Hc) as (_ & _ & Hm & Hp & _ & Hi & Hn & _).
  unfold Float.split_sign. rewrite Hm, Hp.
  rewrite (lower_digits _ Hs).
  assert (String.eqb (String c s) "inf" = false) as ->
    by (simpl; rewrite Hi; reflexivity).
  assert (String.eqb (String c s) "infinity" = false) as ->
    by (simpl; rewrite Hi; reflexivity).
  assert (String.eqb (String c s) "nan" = false) as ->
    by (simpl; rewrite Hn; reflexivity).
  cbn [orb]. unfold Float.parse_finite.
  rewrite (span_digits_all _ Hs). cbn [Str.is_empty andb].
  cbn [Float.parse_exponent]. rewrite str_append_empty_r. reflexivity.
Qed.

(** The exact ratio of a float has a power of two as its denominator. *)
Lemma as_integer_ratio_denominator (x : Float.t) (n d : Z) :
  Float.as_integer_ratio x = Ok (n, d) -> power_of_two d.
Proof.
  destruct x as [s|s| |s m e]; simpl; try discriminate.
  - intros [= _ <-]. exists 0%nat. reflexivity.
  - destruct e as [|p|p].
    + intros [= _ <-]. exists 0%nat. reflexivity.
    + intros [= _ <-]. exists 0%nat. reflexivity.
    + destruct (Float.reduce2 m (Pos.to_nat p)) as [m' k'].
      intros [= _ <-]. exists k'. reflexivity.
Qed.

Lemma ten_not_power_of_two : ~ power_of_two 10.
Proof.
  intros [k Hk].
  destruct k as [|[|[|[|k]]]]; try discriminate Hk.
  assert (2 ^ 4 <= 2 ^ Z.of_nat (S (S (S (S k)))))%Z
    by (apply Z.pow_le_mono_r; lia).
  lia.
Qed.

(** Whatever float is stored, its exact ratio is not 1/10: the
    serialiser of a score note cannot write that literal back. *)
Lemma no_float_is_a_tenth (x : Float.t) :
  Float.as_integer_ratio x <> Ok (1, 10)%Z.
Proof.
  intros H. apply as_integer_ratio_denominator in H.
  exact (ten_not_power_of_two H).
Qed.

(** ** The regular-expression engine *)

(** A greedy repeat takes a run of characters the atom accepts and
    hands the rest to its continuation. *)
Lemma greedy_inv {R} (a : Re.atom) (k : nat -> string -> option R)
    (i : nat) (s : string) (x : R) :
  Re.greedy a k i s = Some x ->
  exists n, (n <= String.length s)%nat
            /\ Str.forallb (Re.atom_ok a) (Str.take n s) = true
            /\ k (i + n)%nat (Str.drop n s) = Some x.
Proof.
  revert i. induction s as [|c s IH]; intros i; simpl.
  - intros Hk. exists 0%nat. rewrite Nat.add_0_r. auto.
  - destruct (Re.atom_ok a c) eqn:Hc.
    + destruct (Re.greedy a k (S i) s) as [y|] eqn:Hg.
      * intros [= ->]. destruct (IH _ Hg) as (n & Hn & Hall & Hk).
        exists (S n). simpl. rewrite Hc, Hall.
        replace (i + S n)%nat with (S i + n)%nat by lia.
        split; [lia|]. auto.
      * intros Hk. exists 0%nat. rewrite Nat.add_0_r. simpl.
        split; [lia|]. auto.
    + intros Hk. exists 0%nat. rewrite Nat.add_0_r. simpl.
      split; [lia|]. auto.
Qed.

Lemma consumed_here (p : ascii -> bool) (e : string -> Prop) i s :
  e s -> consumed p e i s i.
Proof.
  intros He. exists 0%nat. rewrite Nat.add_0_r.
  split; [reflexivity|]. split; [lia|]. split; [reflexivity|exact He].
Qed.

Lemma consumed_advance (p : ascii -> bool) (e : string -> Prop)
    (i n1 : nat) (s : string) (j : nat) :
  (n1 <= String.length s)%nat ->
  Str.forallb p (Str.take n1 s) = true ->
  consumed p e (i + n1) (Str.drop n1 s) j ->
  consumed p e i s j.
Proof.
  intros Hn1 Hall1 (n2 & -> & Hn2 & Hall2 & He).
  exists (n1 + n2)%nat. rewrite str_length_drop in Hn2.
  split; [lia|]. split; [lia|].
  split; [apply forallb_take_add; assumption|].
  rewrite <- str_drop_drop. exact He.
Qed.

Lemma consumed_weaken (p : ascii -> bool) (e e' : string -> Prop) i s j :
  (forall t, e t -> e' t) -> consumed p e i s j -> consumed p e' i s j.
Proof. intros Hee (n & ? & ? & ? & ?). exists n. auto. Qed.

Lemma ends_eol_cons (it : Re.item) (r : Re.regex) :
  r <> [] -> ends_eol (it :: r) = ends_eol r.
Proof.
  unfold ends_eol. intros Hr. destruct r as [|it' r]; [contradiction|].
  reflexivity.
Qed.

Lemma eol_ok_cons (it : Re.item) (r : Re.regex) (t : string) :
  it <> Re.IEol -> eol_ok r t -> eol_ok (it :: r) t.
Proof.
  intros Hit Hr He. destruct r as [|it' r'].
  - unfold ends_eol in He. simpl in He. destruct it; try discriminate.
    contradiction.
  - rewrite ends_eol_cons in He by discriminate. auto.
Qed.

(** A match of a pattern whose atoms accept only characters satisfying
    [p] ends within the text, over characters satisfying [p]; if the
    pattern ends with [$], what is left is empty or one newline. *)
Lemma match_here_within (p : ascii -> bool) (r : Re.regex) :
  Forall (item_within p) r ->
  forall i s start caps j caps',
    Re.match_here r i s start caps = Some (j, caps') ->
    consumed p (eol_ok r) i s j.
Proof.
  induction 1 as [|it r Hit Hr IH]; intros i s start caps j caps' Hm.
  - simpl in Hm. injection Hm as <- <-. apply consumed_here. discriminate.
  - destruct it; simpl in Hm.
    + (* one character *)
      destruct s as [|c s]; [discriminate|].
      destruct (Re.atom_ok a c) eqn:Hc; [|discriminate].
      apply (consumed_advance p _ i 1 (String c s)); [simpl; lia| |].
      { simpl. rewrite (Hit c Hc). reflexivity. }
      replace (i + 1)%nat with (S i) by lia.
      eapply consumed_weaken; [|eapply IH; exact Hm].
      intros t. apply eol_ok_cons. discriminate.
    + (* star *)
      destruct (greedy_inv _ _ _ _ _ Hm) as (n1 & Hn1 & Hall1 & Hk).
      apply (consumed_advance p _ i n1 s); [exact Hn1| |].
      { eapply forallb_weaken; [exact Hit|exact Hall1]. }
      eapply consumed_weaken; [|eapply IH; exact Hk].
      intros t. apply eol_ok_cons. discriminate.
    + (* plus *)
      destruct s as [|c s]; [discriminate|].
      destruct (Re.atom_ok a c) eqn:Hc; [|discriminate].
      destruct (greedy_inv _ _ _ _ _ Hm) as (n1 & Hn1 & Hall1 & Hk).
      apply (consumed_advance p _ i (S n1) (String c s)); [simpl; lia| |].
      { simpl. rewrite (Hit c Hc). simpl.
        eapply forallb_weaken; [exact Hit|exact Hall1]. }
      replace (i + S n1)%nat with (S i + n1)%nat by lia.
      eapply consumed_weaken; [|eapply IH; exact Hk].
      intros t. apply eol_ok_cons. discriminate.
    + eapply consumed_weaken; [|eapply IH; exact Hm].
      intros t. apply eol_ok_cons. discriminate.
    + eapply consumed_weaken; [|eapply IH; exact Hm].
      intros t. apply eol_ok_cons. discriminate.
    + destruct i; [|discriminate].
      eapply consumed_weaken; [|eapply IH; exact Hm].
      intros t. apply eol_ok_cons. discriminate.
    + destruct (Re.at_end s) eqn:Hs; [|discriminate].
      destruct r as [|it' r'].
      * simpl in Hm. injection Hm as <- <-. apply consumed_here.
        intros _. exact Hs.
      * eapply consumed_weaken; [|eapply IH; exact Hm].
        intros t Ht He. rewrite ends_eol_cons in He by discriminate. auto.
    + discriminate.
Qed.

(** A match closes every group of the pattern once. *)
Lemma match_here_groups (r : Re.regex) :
  forall i s start caps j caps',
    Re.match_here r i s start caps = Some (j, caps') ->
    length caps' = (length caps + count_groups r)%nat.
Proof.
  induction r as [|it r IH]; intros i s start caps j caps' Hm.
  - simpl in Hm. injection Hm as <- <-. simpl. lia.
  - destruct it; cbn [Re.match_here] in Hm; cbn [count_groups].
    + destruct s as [|c s]; [discriminate|].
      destruct (Re.atom_ok a c); [|discriminate]. eauto.
    + destruct (greedy_inv _ _ _ _ _ Hm) as (n & _ & _ & Hk).
      exact (IH _ _ _ _ _ _ Hk).
    + destruct s as [|c s]; [discriminate|].
      destruct (Re.atom_ok a c); [|discriminate].
      destruct (greedy_inv _ _ _ _ _ Hm) as (n & _ & _ & Hk).
      exact (IH _ _ _ _ _ _ Hk).
    + eauto.
    + rewrite (IH _ _ _ _ _ _ Hm). simpl. lia.
    + destruct i; [|discriminate]. eauto.
    + destruct (Re.at_end s); [|discriminate]. eauto.
    + discriminate.
Qed.

Lemma search_from_groups (r : Re.regex) (whole : string) :
  forall s i m,
    Re.search_from r whole i s = Some m ->
    length (Re.groups m) = count_groups r.
Proof.
  induction s as [|c s IH]; intros i m; simpl.
  - destruct (Re.match_here r i EmptyString 0 []) as [[j caps]|] eqn:Hm;
      [|discriminate].
    intros [= <-]. unfold Re.groups. simpl.
    rewrite length_map, length_rev.
    apply (match_here_groups _ _ _ _ _ _ _ Hm).
  - destruct (Re.match_here r i (String c s) 0 []) as [[j caps]|] eqn:Hm.
    + intros [= <-]. unfold Re.groups. simpl.
      rewrite length_map, length_rev.
      apply (match_here_groups _ _ _ _ _ _ _ Hm).
    + apply IH.
Qed.

(** [m.groups()] has one entry for each group of the pattern. *)
Lemma search_groups (r : Re.regex) (s : string) (pos : nat)
    (m : Re.match_obj) :
  Re.search r s pos = Some m -> length (Re.groups m) = count_groups r.
Proof.
  unfold Re.search. destruct (pos <=? String.length s)%nat; [|discriminate].
  apply search_from_groups.
Qed.

(** ** The rational pattern *)

Lemma digit_atom_ok (c : ascii) :
  Re.atom_ok digit_atom c = true -> Str.is_digit c = true.
Proof. destruct c as [[] [] [] [] [] [] [] []]; vm_compute; congruence. Qed.

Lemma digit_not_plus (c : ascii) :
  Re.atom_ok digit_atom c = true -> not_plus c = true.
Proof. destruct c as [[] [] [] [] [] [] [] []]; vm_compute; congruence. Qed.

Lemma slash_not_plus (c : ascii) :
  Re.atom_ok (Re.AChar "/") c = true -> not_plus c = true.
Proof. destruct c as [[] [] [] [] [] [] [] []]; vm_compute; congruence. Qed.

Lemma rational_pattern_within :
  Forall (item_within not_plus) rational_pattern.
Proof.
  rewrite rational_pattern_items.
  repeat constructor; first [exact digit_not_plus | exact slash_not_plus].
Qed.

Lemma at_end_no_plus (t : string) :
  Re.at_end t = true -> Str.contains "+" t = false.
Proof.
  destruct t as [|c [|d t]]; try discriminate; [reflexivity|].
  destruct c as [[] [] [] [] [] [] [] []]; vm_compute; congruence.
Qed.

(** The rational pattern fits no text that contains [+]. *)
Lemma rational_pattern_no_plus (v : string) :
  Str.contains "+" v = true -> Re.match_ rational_pattern v = None.
Proof.
  intros Hplus. unfold Re.match_.
  destruct (Re.match_here rational_pattern 0 v 0 []) as [[j caps]|] eqn:Hm;
    [|reflexivity].
  destruct (match_here_within not_plus _ rational_pattern_within
              _ _ _ _ _ _ Hm) as (n & _ & _ & Hall & He).
  unfold Str.contains in Hplus.
  rewrite (take_drop_existsb _ n v) in Hplus.
  rewrite (forallb_not_existsb not_plus (Ascii.eqb "+") _) in Hplus; [|
    |exact Hall].
  - pose proof (at_end_no_plus _ (He eq_refl)) as Hd.
    unfold Str.contains in Hd. rewrite Hd in Hplus. discriminate.
  - intros c Hc. unfold not_plus in Hc. rewrite Ascii.eqb_sym.
    destruct (Ascii.eqb c "+"); [discriminate|reflexivity].
Qed.

(** A match of the rational pattern has two groups, each a non-empty
    run of digits. *)
Lemma rational_match_groups (v : string) (m : Re.match_obj) :
  Re.match_ rational_pattern v = Some m ->
  exists c1 d1 c2 d2,
    Re.groups m = [String c1 d1; String c2 d2]
    /\ Str.forallb Str.is_digit (String c1 d1) = true
    /\ Str.forallb Str.is_digit (String c2 d2) = true.
Proof.
  unfold Re.match_. rewrite rational_pattern_items.
  destruct (Re.match_here _ 0 v 0 []) as [[j caps]|] eqn:Hm; [|discriminate].
  intros [= <-].
  cbn [Re.match_here] in Hm.
  destruct v as [|c1 s1]; [discriminate|].
  destruct (Re.atom_ok digit_atom c1) eqn:Hc1; [|discriminate].
  apply greedy_inv in Hm as (n1 & Hn1 & Hall1 & Hm).
  cbn [Re.match_here] in Hm.
  destruct (Str.drop n1 s1) as [|sl t1] eqn:Hd1; [discriminate|].
  destruct (Re.atom_ok (Re.AChar "/") sl) eqn:Hsl; [|discriminate].
  destruct t1 as [|c2 s2]; [discriminate|].
  destruct (Re.atom_ok digit_atom c2) eqn:Hc2; [|discriminate].
  apply greedy_inv in Hm as (n2 & Hn2 & Hall2 & Hm).
  cbn [Re.match_here] in Hm.
  destruct (Re.at_end (Str.drop n2 s2)); [|discriminate].
  injection Hm as <- <-.
  exists c1, (Str.take n1 s1), c2, (Str.take n2 s2).
  split; [|split].
  - assert (G2 : Str.slice (S (1 + n1)) (S (S (1 + n1)) + n2) (String c1 s1)
                 = String c2 (Str.take n2 s2)).
    { unfold Str.slice.
      replace (S (S (1 + n1)) + n2 - S (1 + n1))%nat with (S n2) by lia.
      change (Str.drop (S (1 + n1)) (String c1 s1))
        with (Str.drop (S n1) s1).
      rewrite (str_drop_succ n1 s1 sl (String c2 s2) Hd1). reflexivity. }
    unfold Re.groups. cbn [Re.text Re.spans rev app List.map fst snd].
    f_equal. f_equal. exact G2.
  - simpl. rewrite (digit_atom_ok c1 Hc1). simpl.
    eapply forallb_weaken; [exact digit_atom_ok|exact Hall1].
  - simpl. rewrite (digit_atom_ok c2 Hc2). simpl.
    eapply forallb_weaken; [exact digit_atom_ok|exact Hall2].
Qed.

(** ** Field interpretation *)

Lemma interpret_field_str (data v : string) :
  interpret_field data = PyStr v -> v = data.
Proof.
  unfold interpret_field.
  destruct (Py.int_of_string data); [discriminate|].
  destruct (Float.of_string data); [discriminate|]. congruence.
Qed.

(** C5 (a defect of the code): [interpret_field_rational] is meant to
    hand back the token when it cannot read it as a number, but a token
    that fits the rational pattern with a zero denominator makes the
    float division raise [ZeroDivisionError]: the function is not total
    on ["1/0"], with or without additions. *)
Theorem C5_zero_denominator_raises :
  interpret_field_rational "1/0" false = Raise ZeroDivisionError
  /\ interpret_field_rational "1/0" true = Raise ZeroDivisionError
  /\ interpret_field "1/0" = PyStr "1/0".
Proof. repeat split; vm_compute; reflexivity. Qed.

(** That is the only way it fails: without additions, nothing but a
    zero denominator makes [interpret_field_rational] raise. *)
Lemma interpret_field_rational_raises_only_zero_division (data : string)
    (e : exn) :
  interpret_field_rational data false = Raise e -> e = ZeroDivisionError.
Proof.
  unfold interpret_field_rational. cbn [interpret_field_rational_rec].
  destruct (interpret_field data) as [| | |v|]; try discriminate.
  destruct (Re.match_ rational_pattern v) as [m|] eqn:Hm; [|discriminate].
  destruct (rational_match_groups v m Hm)
    as (c1 & d1 & c2 & d2 & -> & H1 & H2).
  unfold Py.float.
  rewrite (float_of_digits c1 d1 H1), (float_of_digits c2 d2 H2).
  cbn [rbind]. unfold Float.div.
  destruct (Float.of_decimal false (Str.digits_value 0 (String c2 d2)) 0);
    cbn [rbind]; congruence.
Qed.

(** A token with a plus sign does not fit the rational pattern, so the
    interpreter of the line classes reads it as [interpret_field]
    does. *)
Lemma field_interpreter_plus (data : string) :
  Str.contains "+" data = true ->
  MatchLine.field_interpreter data = Ok (interpret_field data).
Proof.
  intros Hplus.
  unfold MatchLine.field_interpreter, interpret_field_rational.
  cbn [interpret_field_rational_rec].
  destruct (interpret_field data) as [| | |v|] eqn:Hv; try reflexivity.
  apply interpret_field_str in Hv as ->.
  rewrite (rational_pattern_no_plus data Hplus). reflexivity.
Qed.

(** With additions enabled the token [1/2+1/4] is the sum 0.75; a
    sustain line keeps it as text. *)
Lemma additions_example :
  interpret_field_rational "1/2+1/4" true = Ok (PyFloat (Float.of_ratio 3 4))
  /\ parse_matchline "sustain(1/2+1/4,59)." []
     = (Ok (Line (SustainPedalLine
                    {| MatchSustainPedal.Time := PyStr "1/2+1/4";
                       MatchSustainPedal.Value := PyInt 59 |})), []).
Proof. split; vm_compute; reflexivity. Qed.

(** Every group of a match goes through the same interpreter: a group
    that contains [+] is stored as [interpret_field] reads it. *)
Lemma interpret_groups_plus (m : Re.match_obj) (groups : list PyVal) :
  MatchLine.interpret_groups m = Ok groups ->
  Forall2 (fun token v =>
             Str.contains "+" token = true -> v = interpret_field token)
    (Re.groups m) groups.
Proof.
  unfold MatchLine.interpret_groups. generalize (Re.groups m) as tokens.
  intros tokens. revert groups.
  induction tokens as [|t tokens IH]; intros groups; cbn [mapR].
  - intros [= <-]. constructor.
  - destruct (MatchLine.field_interpreter t) as [v|e] eqn:Hv;
      cbn [rbind]; [|discriminate].
    destruct (mapR MatchLine.field_interpreter tokens) as [vs|e];
      cbn [rbind]; [|discriminate].
    intros [= <-]. constructor; [|apply IH; reflexivity].
    intros Hplus.
    pose proof (rational_pattern_no_plus t Hplus) as Hno.
    unfold MatchLine.field_interpreter, interpret_field_rational in Hv.
    cbn [interpret_field_rational_rec] in Hv.
    destruct (interpret_field t) as [| | |s|] eqn:Ht;
      try (injection Hv as <-; reflexivity).
    apply interpret_field_str in Ht as ->.
    rewrite Hno in Hv. injection Hv as <-. reflexivity.
Qed.

(** ** The pitch model and the constructor of a performed note *)

(** C6: the spelling (E, n, 4) maps to MIDI number 64 and pitch class 4;
    a performed note given that spelling and the MIDI pitch 64 is
    constructed, whatever its other fields (the velocity being an
    [int]), and records the pair (64, 4); given the MIDI pitch 65 the
    constructor raises [ValueError], whatever the other arguments. *)
Theorem C6_pitch_consistency :
  pitch_name_2_midi_PC (PyStr "n") (PyStr "E") 4 = Ok (64, 4)%Z
  /\ (forall Number Onset Offset AdjOffset version (velocity : Z),
        MatchPnote.init Number (PyStr "E") (PyStr "n") (PyInt 4)
          Onset Offset AdjOffset (PyInt velocity) (Some 64%Z) version
        = Ok {| MatchPnote.Number := Number;
                MatchPnote.NoteName := PyStr "E";
                MatchPnote.Modifier := PyStr "n";
                MatchPnote.Octave := 4;
                MatchPnote.MidiPitch := Some (64, 4)%Z;
                MatchPnote.Onset := Onset;
                MatchPnote.Offset := Offset;
                MatchPnote.AdjOffset :=
                  if Py.is_none AdjOffset then Offset else AdjOffset;
                MatchPnote.Velocity := velocity;
                MatchPnote.version := version |})
  /\ (forall Number Onset Offset AdjOffset Velocity version,
        MatchPnote.init Number (PyStr "E") (PyStr "n") (PyInt 4)
          Onset Offset AdjOffset Velocity (Some 65%Z) version
        = Raise ValueError).
Proof.
  split; [vm_compute; reflexivity|].
  split; intros; vm_compute; reflexivity.
Qed.

(** A rest maps to (0, 0), whatever the modifier and the octave. *)
Lemma rest_maps_to_zero (modifier : PyVal) (octave : Z) :
  pitch_name_2_midi_PC modifier (PyStr "r") octave = Ok (0, 0)%Z.
Proof. reflexivity. Qed.

(** C8, as the code has it: with the note name H the constructor raises
    [ValueError] whenever the modifier and the octave are both given,
    whatever the other arguments, and also when one of them is missing
    and no MIDI pitch is given. *)
Theorem C8_invalid_letter
    (Number Modifier Octave Onset Offset AdjOffset Velocity version : PyVal)
    (MidiPitch : option Z) :
  (Py.is_none Modifier = false /\ Py.is_none Octave = false)
  \/ MidiPitch = None ->
  MatchPnote.init Number (PyStr "H") Modifier Octave Onset Offset AdjOffset
    Velocity MidiPitch version = Raise ValueError.
Proof.
  intros [[Hm Ho]| ->].
  - destruct Modifier; try discriminate Hm;
      destruct Octave; try discriminate Ho;
      destruct MidiPitch; reflexivity.
  - destruct Modifier; destruct Octave; reflexivity.
Qed.

Lemma C8_invalid_letter_witness :
  ((Py.is_none (PyStr "n") = false /\ Py.is_none (PyInt 4) = false)
   \/ Some 64%Z = None)
  /\ MatchPnote.init (PyInt 0) (PyStr "H") (PyStr "n") (PyInt 4)
       (PyInt 471720) (PyInt 472397) (PyInt 472397) (PyInt 49)
       (Some 64%Z) LATEST_VERSION = Raise ValueError.
Proof.
  split.
  - left. split; reflexivity.
  - apply C8_invalid_letter. left. split; reflexivity.
Defined.

(** C8 fails as stated: when the modifier is missing and a MIDI pitch
    is given, the note name H is not looked at; the spelling comes from
    the MIDI pitch and the note is constructed. *)
Lemma C8_letter_ignored_with_midi_pitch :
  MatchPnote.init (PyInt 0) (PyStr "H") PyNone (PyInt 4)
    (PyInt 471720) (PyInt 472397) (PyInt 472397) (PyInt 49)
    (Some 64%Z) LATEST_VERSION
  = Ok {| MatchPnote.Number := PyInt 0;
          MatchPnote.NoteName := PyStr "E";
          MatchPnote.Modifier := PyStr "n";
          MatchPnote.Octave := 4;
          MatchPnote.MidiPitch := Some (64, 4)%Z;
          MatchPnote.Onset := PyInt 471720;
          MatchPnote.Offset := PyInt 472397;
          MatchPnote.AdjOffset := PyInt 472397;
          MatchPnote.Velocity := 49;
          MatchPnote.version := LATEST_VERSION |}.
Proof. vm_compute. reflexivity. Qed.

(** ** Version fallback *)

(** C7: the seven-field line [note(0,[E,n],4,471720,472397,49)] does not
    fit the latest performed-note pattern and fits the version-1
    pattern; [MatchPnote.from_matchline] then builds, in any store, a
    new note whose version is 1.0 and whose [AdjOffset] is its [Offset],
    both 472397. *)
Theorem C7_legacy_note_fallback (h : list MatchPnote.t) :
  Re.search MatchPnote.re_obj old_note_line 0 = None
  /\ is_Some (Re.search MatchPnote.re_obj_v1 old_note_line 0)
  /\ MatchPnote.from_matchline old_note_line 0 h
     = (Ok (length h), h ++ [example_pnote (PyFloat (Float.of_ratio 1 1))])
  /\ MatchPnote.version (example_pnote (PyFloat (Float.of_ratio 1 1)))
     = PyFloat (Float.of_ratio 1 1)
  /\ MatchPnote.AdjOffset (example_pnote (PyFloat (Float.of_ratio 1 1)))
     = PyInt 472397
  /\ MatchPnote.Offset (example_pnote (PyFloat (Float.of_ratio 1 1)))
     = PyInt 472397.
Proof.
  split; [vm_compute; reflexivity|].
  split; [vm_compute; eauto|].
  split; [|repeat split].
  vm_compute. reflexivity.
Qed.

(** C4 (a defect of the code): [MatchSnoteNote.pattern_v1] starts with
    the performed-note pattern where the score-note pattern belongs, so
    a version-1 paired line fits neither paired pattern:
    [MatchSnoteNote.from_matchline] raises [MatchError] and the
    dispatcher returns [False].  The pattern that starts with the
    score-note pattern does fit the line. *)
Theorem C4_legacy_pair_unmatched :
  Re.search MatchSnoteNote.re_obj snote_oldnote_line 0 = None
  /\ Re.search MatchSnoteNote.re_obj_v1 snote_oldnote_line 0 = None
  /\ MatchSnoteNote.from_matchline snote_oldnote_line 0 []
     = (Raise MatchError, [])
  /\ parse_matchline snote_oldnote_line [] = (Ok PyFalse, [])
  /\ is_Some (Re.search
                (Re.compile (MatchSnote.pattern +:+ "-"
                             +:+ MatchPnote.pattern_v1))
                snote_oldnote_line 0).
Proof.
  repeat split; try (vm_compute; reflexivity). vm_compute; eauto.
Qed.

(** The version-1 branch of the paired grammar returns for no line at
    all: its pattern has the fifteen groups of two performed notes, so
    after the eleven score-note fields only four values are left for
    the seven fields of the performed note, and the call of
    [MatchPnote] lacks [Onset], [Offset] and [Velocity]. *)
Lemma legacy_pair_branch_never_returns (l : string) (pos : nat)
    (h : list MatchPnote.t) :
  Re.search MatchSnoteNote.re_obj l 0 = None ->
  is_ok (fst (MatchSnoteNote.from_matchline l pos h)) = false.
Proof.
  intros Hlatest. unfold MatchSnoteNote.from_matchline. rewrite Hlatest.
  destruct (Re.search MatchSnoteNote.re_obj_v1 l pos) as [m|] eqn:Hv1;
    [|reflexivity].
  apply search_groups in Hv1.
  unfold Heap.bind at 1. unfold Heap.lift at 1.
  unfold MatchLine.interpret_groups.
  destruct (mapR MatchLine.field_interpreter (Re.groups m))
    as [groups|e] eqn:Hg; [|reflexivity].
  apply mapR_length in Hg. rewrite Hv1 in Hg.
  change (count_groups MatchSnoteNote.re_obj_v1) with 15%nat in Hg.
  do 16 (destruct groups as [|? groups]; try discriminate Hg).
  unfold Heap.bind, Heap.lift.
  cbn [take drop MatchSnoteNote.n_snote length MatchSnote.field_names].
  match goal with
  | |- context [MatchSnote.new ?k] => destruct (MatchSnote.new k) as [sn|e]
  end; [|reflexivity].
  vm_compute. reflexivity.
Qed.

(** ** Pairing a score note with a performed note *)

(** C9: built with the default [same_pitch_spelling=True], a paired
    line holds the caller's performed note, whose [NoteName],
    [Modifier] and [Octave] now are those of the score note; its other
    attributes are as before, and so is every other object of the
    store. *)
Theorem C9_pairing_overwrites_spelling (snote : MatchSnote.t)
    (note : Heap.ref) (o : MatchPnote.t) (h : list MatchPnote.t) :
  h !! note = Some o ->
  exists o',
    MatchSnoteNote.init snote note true h
    = (Ok {| MatchSnoteNote.snote := snote; MatchSnoteNote.note := note |},
       <[note := o']> h)
    /\ <[note := o']> h !! note = Some o'
    /\ MatchPnote.NoteName o' = MatchSnote.NoteName snote
    /\ MatchPnote.Modifier o' = MatchSnote.Modifier snote
    /\ MatchPnote.Octave o' = MatchSnote.Octave snote
    /\ MatchPnote.Number o' = MatchPnote.Number o
    /\ MatchPnote.Onset o' = MatchPnote.Onset o
    /\ MatchPnote.Offset o' = MatchPnote.Offset o
    /\ MatchPnote.AdjOffset o' = MatchPnote.AdjOffset o
    /\ MatchPnote.Velocity o' = MatchPnote.Velocity o
    /\ MatchPnote.version o' = MatchPnote.version o
    /\ MatchPnote.MidiPitch o' = MatchPnote.MidiPitch o
    /\ (forall r, r <> note -> <[note := o']> h !! r = h !! r)
    /\ length (<[note := o']> h) = length h.
Proof.
  intros Hl.
  exists (MatchPnote.set_Octave (MatchSnote.Octave snote)
            (MatchPnote.set_Modifier (MatchSnote.Modifier snote)
               (MatchPnote.set_NoteName (MatchSnote.NoteName snote) o))).
  assert (Hlt : (note < length h)%nat) by (eapply lookup_lt_Some; eauto).
  split.
  - unfold MatchSnoteNote.init, Heap.bind, Heap.update, Heap.ret.
    rewrite Hl.
    rewrite list_lookup_insert_eq by assumption.
    rewrite list_lookup_insert_eq by (rewrite length_insert; assumption).
    rewrite !list_insert_insert_eq. reflexivity.
  - split; [apply list_lookup_insert_eq; assumption|].
    repeat (split; [reflexivity|]).
    split; [|apply length_insert].
    intros r Hr. apply list_lookup_insert_ne. congruence.
Qed.

Lemma C9_pairing_witness :
  [example_pnote LATEST_VERSION] !! 0%nat = Some (example_pnote LATEST_VERSION)
  /\ exists o',
       MatchSnoteNote.init example_snote 0%nat true
         [example_pnote LATEST_VERSION]
       = (Ok {| MatchSnoteNote.snote := example_snote;
                MatchSnoteNote.note := 0%nat |},
          <[0%nat := o']> [example_pnote LATEST_VERSION])
       /\ MatchPnote.NoteName o' = PyStr "F"
       /\ MatchPnote.Modifier o' = PyStr "#"
       /\ MatchPnote.Octave o' = 5%Z
       /\ MatchPnote.Number o' = PyInt 0
       /\ MatchPnote.Velocity o' = 49%Z.
Proof.
  split; [reflexivity|].
  destruct (C9_pairing_overwrites_spelling example_snote 0%nat
              (example_pnote LATEST_VERSION) [example_pnote LATEST_VERSION]
              eq_refl)
    as (o' & Hinit & _ & Hn & Hm & Ho & Hnum & _ & _ & _ & Hv & _).
  exists o'. repeat split; assumption.
Defined.

(** Built with [same_pitch_spelling=False], the paired line leaves the
    store as it is. *)
Lemma pairing_without_spelling (snote : MatchSnote.t) (note : Heap.ref)
    (h : list MatchPnote.t) :
  MatchSnoteNote.init snote note false h
  = (Ok {| MatchSnoteNote.snote := snote; MatchSnoteNote.note := note |}, h).
Proof. reflexivity. Qed.

(** ** The dispatcher *)

Lemma try_methods_never_MatchError (ms : list method) (l : string)
    (h : list MatchPnote.t) :
  fst (try_methods ms l h) <> Raise MatchError.
Proof.
  revert h. induction ms as [|f rest IH]; intros h; simpl; [discriminate|].
  destruct (f l h) as [[m|e] h']; simpl; [discriminate|].
  destruct e; simpl; try discriminate. apply IH.
Qed.

(** The loop returns [False] when every method raises [MatchError], and
    otherwise what the first other outcome is. *)
Lemma try_methods_outcome (ms : list method) (l : string)
    (h : list MatchPnote.t) :
  (exists h', skips ms l h h' /\ try_methods ms l h = (Ok PyFalse, h'))
  \/ (exists pre f post h1 r h2,
        ms = pre ++ f :: post
        /\ skips pre l h h1
        /\ f l h1 = (r, h2)
        /\ r <> Raise MatchError
        /\ try_methods ms l h = (handed_on r, h2)).
Proof.
  revert h. induction ms as [|f rest IH]; intros h.
  - left. exists h. split; reflexivity.
  - destruct (f l h) as [r h1] eqn:Ef.
    assert (r = Raise MatchError \/ r <> Raise MatchError) as [->|Hr]
      by (destruct r as [m|[]]; (left; reflexivity) || (right; discriminate)).
    + destruct (IH h1)
        as [(h' & Hs & Ht)
           |(pre & g & post & h2 & r & h3 & Hms & Hs & Hg & Hr & Ht)].
      * left. exists h'. split; [exists h1; auto|].
        simpl. rewrite Ef. exact Ht.
      * right. exists (f :: pre), g, post, h2, r, h3.
        split; [simpl; congruence|].
        split; [exists h1; auto|].
        split; [exact Hg|]. split; [exact Hr|].
        simpl. rewrite Ef. exact Ht.
    + right. exists [], f, rest, h, r, h1.
      split; [reflexivity|]. split; [reflexivity|].
      split; [exact Ef|]. split; [exact Hr|].
      simpl. rewrite Ef.
      destruct r as [m|e]; [reflexivity|]. destruct e; try reflexivity.
      contradiction.
Qed.

(** C1, as the code has it: [parse_matchline] never raises [MatchError].
    A kind that raises it (its grammar does not fit the line) is passed
    over for the next kind of the fixed order, and when all seven are
    passed over the result is [False].  The first kind with another
    outcome decides: its record is returned, and an exception other
    than [MatchError] that its field interpretation or its constructor
    raises leaves [parse_matchline] as it is, with no further kind
    tried. *)
Theorem C1_dispatch_outcome (l : string) (h : list MatchPnote.t) :
  fst (parse_matchline l h) <> Raise MatchError
  /\ ((exists h', skips from_matchline_methods l h h'
                  /\ parse_matchline l h = (Ok PyFalse, h'))
      \/ (exists pre f post h1 r h2,
            from_matchline_methods = pre ++ f :: post
            /\ skips pre l h h1
            /\ f l h1 = (r, h2)
            /\ r <> Raise MatchError
            /\ parse_matchline l h = (handed_on r, h2))).
Proof.
  split.
  - apply try_methods_never_MatchError.
  - apply try_methods_outcome.
Qed.

(** C1 fails as stated: an insertion line with the note letter H fits
    the insertion grammar, the constructor of the performed note raises
    [ValueError], and [parse_matchline] raises it too. *)
Lemma C1_validation_error_escapes :
  is_Some (Re.search MatchInsertionNote.re_obj
             "insertion-note(0,[H,n],4,471720,472397,472397,49)." 0)
  /\ parse_matchline "insertion-note(0,[H,n],4,471720,472397,472397,49)." []
     = (Raise ValueError, []).
Proof. split; vm_compute; eauto. Qed.

(** A line that fits no grammar is unmatched. *)
Lemma unmatched_example : parse_matchline "foo(1,2)." [] = (Ok PyFalse, []).
Proof. vm_compute. reflexivity. Qed.

(** ** Serialisation *)

(** C3, as the code has it: the six lines of the self-test (paired,
    deletion, insertion, info, meta, sustain) are parsed as records
    whose serialisation is the line itself; the three stand-alone
    sub-record examples (a score note, a performed note, a version-1
    performed note) are not line kinds of the dispatcher, which returns
    [False] for them. *)
Theorem C3_examples_dispatch :
  Forall (fun l => roundtrip l = Ok l) matchlines
  /\ Forall (fun l => parse_matchline l [] = (Ok PyFalse, []))
       [snote_line; note_line; old_note_line].
Proof. split; repeat constructor; vm_compute; reflexivity. Qed.

(** C3 fails as stated: the stand-alone score-note example is unmatched. *)
Lemma C3_standalone_snote_unmatched :
  fst (parse_matchline "snote(1-1,[E,n],4,0:1,0,1/4,-1.0,0.0,[staff1])" [])
  = Ok PyFalse.
Proof. vm_compute. reflexivity. Qed.

(** The classes of the sub-records do read the stand-alone examples:
    the first two serialise to themselves, the version-1 note to the
    eight-field text. *)
Lemma standalone_examples_by_class :
  (r <- MatchSnote.from_matchline snote_line 0 ;; MatchSnote.matchline r)
  = Ok snote_line
  /\ fst ((r <~ MatchPnote.from_matchline note_line 0 ;;
           MatchPnote.matchline r) []) = Ok note_line
  /\ fst ((r <~ MatchPnote.from_matchline old_note_line 0 ;;
           MatchPnote.matchline r) []) = Ok note_line.
Proof. repeat split; vm_compute; reflexivity. Qed.

(** C2 (a defect of the code): the float read from [1/10] is written
    back as the exact ratio of the binary64 value, not as [1/10], so
    this well-formed deletion line does not serialise to itself. *)
Theorem C2_tenth_not_reproduced :
  roundtrip "snote(1-1,[E,n],4,0:1,1/10,1/10,-1.0,0.0,[staff1])-deletion."
  = Ok ("snote(1-1,[E,n],4,0:1,"
        +:+ "3602879701896397/36028797018963968,"
        +:+ "3602879701896397/36028797018963968,"
        +:+ "-1.0,0.0,[staff1])-deletion.").
Proof. vm_compute. reflexivity. Qed.

(** ** What a parsed line holds of its tokens *)

(** What the interpreter returns is a number or the token itself. *)
Lemma field_interpreter_value (token : string) (v : PyVal) :
  MatchLine.field_interpreter token = Ok v ->
  Py.is_number v = true \/ v = PyStr token.
Proof.
  unfold MatchLine.field_interpreter, interpret_field_rational.
  cbn [interpret_field_rational_rec].
  destruct (interpret_field token) as [| | |s|] eqn:Hs.
  - unfold interpret_field in Hs.
    destruct (Py.int_of_string token); [discriminate|].
    destruct (Float.of_string token); discriminate.
  - intros [= <-]. left. reflexivity.
  - intros [= <-]. left. reflexivity.
  - apply interpret_field_str in Hs as ->.
    destruct (Re.match_ rational_pattern token) as [m|].
    + destruct (Re.groups m) as [|g0 [|g1 [|]]]; try discriminate.
      destruct (Py.float g0); cbn [rbind]; [|discriminate].
      destruct (Py.float g1); cbn [rbind]; [|discriminate].
      destruct (Float.div a a0); cbn [rbind]; [|discriminate].
      intros [= <-]. left. reflexivity.
    + intros [= <-]. right. reflexivity.
  - unfold interpret_field in Hs.
    destruct (Py.int_of_string token); [discriminate|].
    destruct (Float.of_string token); discriminate.
Qed.

Lemma field_interpreter_not_none (token : string) (v : PyVal) :
  MatchLine.field_interpreter token = Ok v -> Py.is_none v = false.
Proof.
  intros H. destruct (field_interpreter_value token v H) as [Hn| ->];
    [destruct v; try discriminate; reflexivity|reflexivity].
Qed.

(** The first two parts of [stored_as]. *)
Lemma stored_as_intro (token : string) (v : PyVal) (f : held) :
  MatchLine.field_interpreter token = Ok v ->
  match f with
  | Kept x => x = v
  | UpperCased x => exists up, str_upper v = Ok up /\ x = PyStr up
  | Converted n => Py.int v = Ok n
  | Pieces parts => v = PyStr token /\ parts = Str.split "," token
  | Overwritten _ => True
  end ->
  stored_as token f.
Proof.
  intros Hv Hf. exists v. split; [exact Hv|]. split; [|exact Hf].
  intros Hplus. rewrite (field_interpreter_plus token Hplus) in Hv.
  injection Hv as <-. split; [reflexivity|].
  intros Hi Hfl. unfold interpret_field. rewrite Hi, Hfl. reflexivity.
Qed.

(** Looking up the keyword arguments of a call. *)
Ltac bind_arguments :=
  repeat match goal with
    | |- context [Py.bind_kwargs ?r ?o ?k] =>
        replace (Py.bind_kwargs r o k) with (Ok tt)
          by (vm_compute; reflexivity)
    | |- context [Py.arg ?k ?n ?d] =>
        let x := eval vm_compute in (Py.arg k n d) in
        replace (Py.arg k n d) with x by (vm_compute; reflexivity)
    end.

Lemma snote_new_positional (v1 v2 v3 v4 v5 v6 v7 v8 v9 v10 v11 : PyVal) :
  MatchSnote.new
    (Py.dict_zip MatchSnote.field_names
       [v1; v2; v3; v4; v5; v6; v7; v8; v9; v10; v11])
  = MatchSnote.init v1 v2 v3 v4 v5 v6 v7 v8 v9 v10 v11.
Proof. unfold MatchSnote.new. bind_arguments. reflexivity. Qed.

Lemma pnote_construct_positional (v1 v2 v3 v4 v5 v6 v7 v8 : PyVal) :
  MatchPnote.construct
    (Py.dict_zip MatchPnote.field_names [v1; v2; v3; v4; v5; v6; v7; v8])
  = MatchPnote.init v1 v2 v3 v4 v5 v6 v7 v8 None LATEST_VERSION.
Proof. unfold MatchPnote.construct. bind_arguments. reflexivity. Qed.

(** The values of the groups, one by one. *)
Ltac interpret_tokens H :=
  cbn [mapR rbind] in H;
  repeat match type of H with
    | context [MatchLine.field_interpreter ?t] =>
        let v := fresh "v" in
        let Hv := fresh "Hv" in
        destruct (MatchLine.field_interpreter t) as [v|] eqn:Hv;
        cbn [mapR rbind] in H; [|discriminate H]
    end.

Ltac stored_tokens :=
  repeat (constructor;
          [eapply stored_as_intro; [eassumption|]; cbn; eauto|]);
  try constructor.

Lemma groups_of_match (r : Re.regex) (l : string) (m : Re.match_obj)
    (n : nat) :
  Re.search r l 0 = Some m -> count_groups r = n ->
  length (Re.groups m) = n.
Proof. intros Hm <-. exact (search_groups r l 0 m Hm). Qed.

(** *** The four kinds that use [MatchLine.from_matchline] as it is *)

Lemma sustain_fields (l : string) (p : MatchSustainPedal.t) :
  MatchSustainPedal.from_matchline l 0 = Ok p ->
  exists m,
    Re.search MatchSustainPedal.re_obj l 0 = Some m
    /\ Forall2 stored_as (Re.groups m)
         [Kept (MatchSustainPedal.Time p); Kept (MatchSustainPedal.Value p)].
Proof.
  unfold MatchSustainPedal.from_matchline, MatchLine.from_matchline.
  destruct (Re.search MatchSustainPedal.re_obj l 0) as [m|] eqn:Hm;
    [|discriminate].
  intros H. exists m. split; [reflexivity|].
  unfold MatchLine.interpret_groups in H.
  pose proof (groups_of_match _ _ _ 2 Hm eq_refl) as Hn.
  destruct (Re.groups m) as [|t1 [|t2 [|]]]; try discriminate Hn.
  interpret_tokens H.
  unfold MatchSustainPedal.new in H. revert H. bind_arguments.
  intros [= <-]. stored_tokens.
Qed.

Lemma soft_fields (l : string) (p : MatchSoftPedal.t) :
  MatchSoftPedal.from_matchline l 0 = Ok p ->
  exists m,
    Re.search MatchSoftPedal.re_obj l 0 = Some m
    /\ Forall2 stored_as (Re.groups m)
         [Kept (MatchSoftPedal.Time p); Kept (MatchSoftPedal.Value p)].
Proof.
  unfold MatchSoftPedal.from_matchline, MatchLine.from_matchline.
  destruct (Re.search MatchSoftPedal.re_obj l 0) as [m|] eqn:Hm;
    [|discriminate].
  intros H. exists m. split; [reflexivity|].
  unfold MatchLine.interpret_groups in H.
  pose proof (groups_of_match _ _ _ 2 Hm eq_refl) as Hn.
  destruct (Re.groups m) as [|t1 [|t2 [|]]]; try discriminate Hn.
  interpret_tokens H.
  unfold MatchSoftPedal.new in H. revert H. bind_arguments.
  intros [= <-]. stored_tokens.
Qed.

Lemma info_fields (l : string) (p : MatchInfo.t) :
  MatchInfo.from_matchline l 0 = Ok p ->
  exists m,
    Re.search MatchInfo.re_obj l 0 = Some m
    /\ Forall2 stored_as (Re.groups m)
         [Kept (MatchInfo.Attribute p); Kept (MatchInfo.Value p)].
Proof.
  unfold MatchInfo.from_matchline, MatchLine.from_matchline.
  destruct (Re.search MatchInfo.re_obj l 0) as [m|] eqn:Hm; [|discriminate].
  intros H. exists m. split; [reflexivity|].
  unfold MatchLine.interpret_groups in H.
  pose proof (groups_of_match _ _ _ 2 Hm eq_refl) as Hn.
  destruct (Re.groups m) as [|t1 [|t2 [|]]]; try discriminate Hn.
  interpret_tokens H.
  unfold MatchInfo.new in H. revert H. bind_arguments.
  intros [= <-]. stored_tokens.
Qed.

Lemma meta_fields (l : string) (p : MatchMeta.t) :
  MatchMeta.from_matchline l 0 = Ok p ->
  exists m,
    Re.search MatchMeta.re_obj l 0 = Some m
    /\ Forall2 stored_as (Re.groups m)
         [Kept (MatchMeta.Attribute p); Kept (MatchMeta.Value p);
          Kept (MatchMeta.Bar p); Kept (MatchMeta.TimeInBeats p)].
Proof.
  unfold MatchMeta.from_matchline, MatchLine.from_matchline.
  destruct (Re.search MatchMeta.re_obj l 0) as [m|] eqn:Hm; [|discriminate].
  intros H. exists m. split; [reflexivity|].
  unfold MatchLine.interpret_groups in H.
  pose proof (groups_of_match _ _ _ 4 Hm eq_refl) as Hn.
  destruct (Re.groups m) as [|t1 [|t2 [|t3 [|t4 [|]]]]];
    try discriminate Hn.
  interpret_tokens H.
  unfold MatchMeta.new in H. revert H. bind_arguments.
  intros [= <-]. stored_tokens.
Qed.

(** *** Score notes and performed notes *)

Lemma snote_init_fields (t1 t2 t3 t4 t5 t6 t7 t8 t9 t10 t11 : string)
    (v1 v2 v3 v4 v5 v6 v7 v8 v9 v10 v11 : PyVal) (s : MatchSnote.t) :
  MatchLine.field_interpreter t1 = Ok v1 ->
  MatchLine.field_interpreter t2 = Ok v2 ->
  MatchLine.field_interpreter t3 = Ok v3 ->
  MatchLine.field_interpreter t4 = Ok v4 ->
  MatchLine.field_interpreter t5 = Ok v5 ->
  MatchLine.field_interpreter t6 = Ok v6 ->
  MatchLine.field_interpreter t7 = Ok v7 ->
  MatchLine.field_interpreter t8 = Ok v8 ->
  MatchLine.field_interpreter t9 = Ok v9 ->
  MatchLine.field_interpreter t10 = Ok v10 ->
  MatchLine.field_interpreter t11 = Ok v11 ->
  MatchSnote.init v1 v2 v3 v4 v5 v6 v7 v8 v9 v10 v11 = Ok s ->
  Forall2 stored_as [t1; t2; t3; t4; t5; t6; t7; t8; t9; t10; t11]
    (snote_fields s).
Proof.
  intros H1 H2 H3 H4 H5 H6 H7 H8 H9 H10 H11. unfold MatchSnote.init.
  destruct (Py.int v4) as [octave|] eqn:Hoct; cbn [rbind]; [|discriminate].
  destruct (field_interpreter_value t11 v11 H11) as [Hnum| ->].
  - destruct v11; try discriminate Hnum; discriminate.
  - cbn [rbind]. intros [= <-]. unfold snote_fields. stored_tokens.
Qed.

(** What [MatchPnote.__init__] keeps of the eight values of a line. *)
Lemma pnote_init_fields (t2 t3 t4 t7 : string)
    (v1 v2 v3 v4 v5 v6 v7 v8 version : PyVal) (o : MatchPnote.t) :
  MatchLine.field_interpreter t2 = Ok v2 ->
  MatchLine.field_interpreter t3 = Ok v3 ->
  MatchLine.field_interpreter t4 = Ok v4 ->
  MatchLine.field_interpreter t7 = Ok v7 ->
  MatchPnote.init v1 v2 v3 v4 v5 v6 v7 v8 None version = Ok o ->
  MatchPnote.Number o = v1
  /\ (exists up, str_upper v2 = Ok up /\ MatchPnote.NoteName o = PyStr up)
  /\ MatchPnote.Modifier o = v3
  /\ Py.int v4 = Ok (MatchPnote.Octave o)
  /\ MatchPnote.Onset o = v5
  /\ MatchPnote.Offset o = v6
  /\ MatchPnote.AdjOffset o = v7
  /\ Py.int v8 = Ok (MatchPnote.Velocity o).
Proof.
  intros H2 H3 H4 H7. unfold MatchPnote.init.
  rewrite (field_interpreter_not_none _ _ H2),
    (field_interpreter_not_none _ _ H3),
    (field_interpreter_not_none _ _ H4),
    (field_interpreter_not_none _ _ H7).
  cbn [orb negb andb].
  destruct (str_upper v2) as [up|]; cbn [rbind]; [|discriminate].
  destruct (bool_decide (up ∈ NOTE_NAMES)); [|discriminate].
  destruct (Py.int v4) as [octave|]; cbn [rbind]; [|discriminate].
  destruct (Py.int v8) as [velocity|]; cbn [rbind]; [|discriminate].
  intros [= <-]. cbn. eauto 10.
Qed.

(** A new object is the last of the store, and assigning to it
    changes it there. *)
Lemma update_new (h : list MatchPnote.t) (o : MatchPnote.t)
    (f : MatchPnote.t -> MatchPnote.t) :
  Heap.update (length h) f (h ++ [o]) = (Ok tt, h ++ [f o]).
Proof.
  unfold Heap.update. rewrite lookup_app_r by lia.
  rewrite Nat.sub_diag. cbn [lookup list_lookup].
  rewrite insert_app_r_alt by lia. rewrite Nat.sub_diag. reflexivity.
Qed.

Lemma deref_new (h : list MatchPnote.t) (o : MatchPnote.t) :
  Heap.deref (length h) (h ++ [o]) = (Ok o, h ++ [o]).
Proof.
  unfold Heap.deref. rewrite lookup_app_r by lia.
  rewrite Nat.sub_diag. reflexivity.
Qed.

(** *** The three kinds with a method of their own *)

Lemma deletion_fields (l : string) (p : MatchSnoteDeletion.t) :
  MatchSnoteDeletion.from_matchline l 0 = Ok p ->
  exists m,
    Re.search MatchSnoteDeletion.re_obj l 0 = Some m
    /\ Forall2 stored_as (Re.groups m)
         (snote_fields (MatchSnoteDeletion.snote p)).
Proof.
  unfold MatchSnoteDeletion.from_matchline.
  destruct (Re.search MatchSnoteDeletion.re_obj l 0) as [m|] eqn:Hm;
    [|discriminate].
  intros H. exists m. split; [reflexivity|].
  unfold MatchLine.interpret_groups in H.
  pose proof (groups_of_match _ _ _ 11 Hm eq_refl) as Hn.
  destruct (Re.groups m)
    as [|t1 [|t2 [|t3 [|t4 [|t5 [|t6 [|t7 [|t8 [|t9 [|t10 [|t11
       [|]]]]]]]]]]]];
    try discriminate Hn.
  interpret_tokens H. rewrite snote_new_positional in H.
  destruct (MatchSnote.init _ _ _ _ _ _ _ _ _ _ _) as [s|] eqn:Hs;
    cbn [rbind] in H; [|discriminate].
  injection H as <-.
  eapply snote_init_fields; eassumption.
Qed.

(** The values of the groups, one by one, in a method that threads the
    store: a failure leaves the store as it was. *)
Ltac interpret_tokens_in_store H :=
  cbn [mapR rbind] in H;
  repeat match type of H with
    | context [MatchLine.field_interpreter ?t] =>
        let v := fresh "v" in
        let Hv := fresh "Hv" in
        destruct (MatchLine.field_interpreter t) as [v|] eqn:Hv;
        cbn [mapR rbind] in H; [|injection H as <- <-; reflexivity]
    end.

(** An insertion line: the line holds what the constructor of its note
    made of the eight tokens; a failure leaves the store as it was. *)
Lemma insertion_outcome (l : string) (h h1 : list MatchPnote.t)
    (r : result MatchInsertionNote.t) :
  MatchInsertionNote.from_matchline l 0 h = (r, h1) ->
  match r with
  | Ok p =>
      exists m,
        Re.search MatchInsertionNote.re_obj l 0 = Some m
        /\ Forall2 stored_as (Re.groups m) (insertion_fields p)
  | Raise _ => h1 = h
  end.
Proof.
  unfold MatchInsertionNote.from_matchline, MatchLine.match_pattern.
  destruct (Re.search MatchInsertionNote.re_obj l 0) as [m|] eqn:Hm;
    [|intros [= <- <-]; reflexivity].
  intros H.
  unfold Heap.bind at 1, Heap.lift, MatchLine.interpret_groups in H.
  pose proof (groups_of_match _ _ _ 8 Hm eq_refl) as Hn.
  destruct (Re.groups m)
    as [|t1 [|t2 [|t3 [|t4 [|t5 [|t6 [|t7 [|t8 [|]]]]]]]]] eqn:Hgm;
    try discriminate Hn.
  interpret_tokens_in_store H.
  unfold MatchPnote.new, Heap.bind, Heap.lift in H.
  rewrite pnote_construct_positional in H.
  destruct (MatchPnote.init _ _ _ _ _ _ _ _ _ _) as [o|] eqn:Ho;
    [|injection H as <- <-; reflexivity].
  unfold Heap.alloc, MatchInsertionNote.init, Heap.bind in H.
  rewrite deref_new in H. unfold Heap.ret in H. injection H as <- <-.
  exists m. split; [reflexivity|]. rewrite Hgm.
  destruct (pnote_init_fields t2 t3 t4 t7 _ _ _ _ _ _ _ _ _ _
              ltac:(eassumption) ltac:(eassumption) ltac:(eassumption)
              ltac:(eassumption) Ho)
    as (E1 & E2 & E3 & E4 & E5 & E6 & E7 & E8).
  unfold insertion_fields. cbn. stored_tokens.
Qed.

(** A paired line: the store has one more object, the performed note,
    with the spelling of the score note; a failure leaves the store as
    it was. *)
Lemma pair_outcome (l : string) (h h1 : list MatchPnote.t)
    (r : result MatchSnoteNote.t) :
  MatchSnoteNote.from_matchline l 0 h = (r, h1) ->
  match r with
  | Ok p =>
      exists m,
        Re.search MatchSnoteNote.re_obj l 0 = Some m
        /\ Forall2 stored_as (Re.groups m) (stored_fields (SnoteNoteLine p) h1)
  | Raise _ => h1 = h
  end.
Proof.
  unfold MatchSnoteNote.from_matchline.
  destruct (Re.search MatchSnoteNote.re_obj l 0) as [m|] eqn:Hm.
  - intros H.
    unfold Heap.bind at 1, Heap.lift at 1, MatchLine.interpret_groups in H.
    pose proof (groups_of_match _ _ _ 19 Hm eq_refl) as Hn.
    destruct (Re.groups m)
      as [|t1 [|t2 [|t3 [|t4 [|t5 [|t6 [|t7 [|t8 [|t9 [|t10 [|t11 [|t12
         [|t13 [|t14 [|t15 [|t16 [|t17 [|t18 [|t19
         [|]]]]]]]]]]]]]]]]]]]] eqn:Hgm;
      try discriminate Hn.
    interpret_tokens_in_store H.
    cbn [take drop MatchSnoteNote.n_snote length MatchSnote.field_names]
      in H.
    unfold Heap.bind at 1, Heap.lift at 1 in H.
    rewrite snote_new_positional in H.
    destruct (MatchSnote.init _ _ _ _ _ _ _ _ _ _ _) as [s|] eqn:Hs;
      [|injection H as <- <-; reflexivity].
    unfold Heap.bind at 1, MatchPnote.new, Heap.bind at 1, Heap.lift in H.
    rewrite pnote_construct_positional in H.
    destruct (MatchPnote.init _ _ _ _ _ _ _ _ _ _) as [o|] eqn:Ho;
      [|injection H as <- <-; reflexivity].
    unfold Heap.alloc, MatchSnoteNote.init, Heap.bind in H.
    rewrite !update_new in H. unfold Heap.ret in H. injection H as <- <-.
    exists m. split; [reflexivity|]. rewrite Hgm.
    cbn [stored_fields MatchSnoteNote.snote MatchSnoteNote.note].
    rewrite lookup_app_r by lia. rewrite Nat.sub_diag.
    cbn [lookup list_lookup].
    destruct (pnote_init_fields t13 t14 t15 t18 _ _ _ _ _ _ _ _ _ _
                ltac:(eassumption) ltac:(eassumption) ltac:(eassumption)
                ltac:(eassumption) Ho)
      as (E1 & E2 & E3 & E4 & E5 & E6 & E7 & E8).
    change [t1; t2; t3; t4; t5; t6; t7; t8; t9; t10; t11; t12; t13; t14;
            t15; t16; t17; t18; t19]
      with ([t1; t2; t3; t4; t5; t6; t7; t8; t9; t10; t11]
            ++ [t12; t13; t14; t15; t16; t17; t18; t19]).
    apply Forall2_app.
    + eapply snote_init_fields; eassumption.
    + unfold paired_fields. cbn. stored_tokens.
  - intros H.
    pose proof (legacy_pair_branch_never_returns l 0 h Hm) as Hno.
    unfold MatchSnoteNote.from_matchline in Hno. rewrite Hm in Hno.
    rewrite H in Hno. cbn [fst] in Hno.
    destruct r as [p|e]; [discriminate Hno|].
    clear Hno. revert H.
    destruct (Re.search MatchSnoteNote.re_obj_v1 l 0) as [m|] eqn:Hv1;
      [|intros [= <- <-]; reflexivity].
    intros H.
    unfold Heap.bind at 1, Heap.lift at 1, MatchLine.interpret_groups in H.
    pose proof (groups_of_match _ _ _ 15 Hv1 eq_refl) as Hn.
    destruct (Re.groups m)
      as [|t1 [|t2 [|t3 [|t4 [|t5 [|t6 [|t7 [|t8 [|t9 [|t10 [|t11 [|t12
         [|t13 [|t14 [|t15 [|]]]]]]]]]]]]]]]];
      try discriminate Hn.
    interpret_tokens_in_store H.
    cbn [take drop MatchSnoteNote.n_snote length MatchSnote.field_names]
      in H.
    unfold Heap.bind at 1, Heap.lift at 1 in H.
    destruct (MatchSnote.new _) as [s|];
      [|injection H as <- <-; reflexivity].
    unfold Heap.bind at 1, MatchPnote.new, Heap.bind at 1, Heap.lift in H.
    match type of H with
    | context [MatchPnote.construct ?k] =>
        replace (MatchPnote.construct k) with (@Raise MatchPnote.t TypeError)
          in H by (vm_compute; reflexivity)
    end.
    injection H as <- <-. reflexivity.
Qed.

(** One kind without a store passed over or returning. *)
Ltac pure_kind H lemma :=
  unfold pure_method, Heap.bind, Heap.lift, Heap.ret in H;
  match type of H with
  | context [match ?f ?l 0%nat with _ => _ end] =>
      let p := fresh "p" in
      let e := fresh "e" in
      let Hp := fresh "Hp" in
      destruct (f l 0%nat) as [p|e] eqn:Hp;
      [injection H as <- <-; exact (lemma _ _ Hp)
      |destruct e; try discriminate H]
  end.

(** C10, as the code has it: every line kind hands each token of the
    line to [interpret_field_rational] with [allow_additions] at its
    default [False], and what a parsed line holds is what its
    constructor makes of these values.  A token with a plus sign is
    never stored as the sum of its parts: its value is what
    [interpret_field] reads in the whole token, the text itself unless
    the whole token is an [int] or [float] literal. *)
Theorem C10_additions_disabled (l : string)
    (h h' : list MatchPnote.t) (mo : match_line) :
  parse_matchline l h = (Ok (Line mo), h') ->
  exists m,
    Re.search (re_obj_of mo) l 0 = Some m
    /\ Forall2 stored_as (Re.groups m) (stored_fields mo h').
Proof.
  unfold parse_matchline, from_matchline_methods. intros H.
  cbn [try_methods] in H.
  (* a pair *)
  unfold heap_method at 1, Heap.bind, Heap.ret in H.
  destruct (MatchSnoteNote.from_matchline l 0 h) as [[p|e] h1] eqn:Hp.
  { injection H as <- <-. exact (pair_outcome _ _ _ _ Hp). }
  apply pair_outcome in Hp. subst h1.
  destruct e; try discriminate H.
  (* a deletion *)
  pure_kind H deletion_fields.
  (* an insertion *)
  unfold heap_method at 1, Heap.bind, Heap.ret in H.
  destruct (MatchInsertionNote.from_matchline l 0 h) as [[q|e] h1] eqn:Hq.
  { injection H as <- <-. exact (insertion_outcome _ _ _ _ Hq). }
  apply insertion_outcome in Hq. subst h1.
  destruct e; try discriminate H.
  (* the pedals, the information and the meta lines *)
  pure_kind H sustain_fields.
  pure_kind H soft_fields.
  pure_kind H info_fields.
  pure_kind H meta_fields.
Qed.

Lemma C10_additions_disabled_witness :
  parse_matchline "sustain(1/2+1/4,59)." []
  = (Ok (Line (SustainPedalLine
                 {| MatchSustainPedal.Time := PyStr "1/2+1/4";
                    MatchSustainPedal.Value := PyInt 59 |})), [])
  /\ exists m,
       Re.search MatchSustainPedal.re_obj "sustain(1/2+1/4,59)." 0 = Some m
       /\ Forall2 stored_as (Re.groups m)
            [Kept (PyStr "1/2+1/4"); Kept (PyInt 59)].
Proof.
  assert (H : parse_matchline "sustain(1/2+1/4,59)." []
              = (Ok (Line (SustainPedalLine
                             {| MatchSustainPedal.Time := PyStr "1/2+1/4";
                                MatchSustainPedal.Value := PyInt 59 |})), []))
    by (vm_compute; reflexivity).
  split; [exact H|].
  exact (C10_additions_disabled _ _ _ _ H).
Defined.

(** C10 fails as stated: a token with a plus sign that is an [int] or
    [float] literal is stored as that number, not as the text. *)
Lemma C10_signed_literal_stored_as_number :
  Str.contains "+" "+5" = true
  /\ Str.contains "+" "1e+5" = true
  /\ parse_matchline "sustain(+5,1e+5)." []
     = (Ok (Line (SustainPedalLine
                    {| MatchSustainPedal.Time := PyInt 5;
                       MatchSustainPedal.Value :=
                         PyFloat (Float.of_ratio 100000 1) |})), []).
Proof. repeat split; vm_compute; reflexivity. Qed.

(** * More of the module

    Properties of the code around the claims: the pitch model in both
    directions, the constructor of a performed note, field
    interpretation, the grammars of the simple line kinds, the store,
    and the classes the dispatcher leaves out. *)

(** ** The pitch model, both ways *)

Lemma spelling_of_midi (m : Z) :
  exists name modifier,
    PC_DICT !! (m mod 12)%Z = Some (name, modifier)
    /\ pitch_name_2_midi_PC (PyStr modifier) (PyStr name) (m / 12 - 1)
       = Ok (m, m mod 12)%Z.
Proof.
  pose proof (Z.mod_pos_bound m 12 ltac:(lia)) as Hr.
  pose proof (Z.div_mod m 12 ltac:(lia)) as Hm.
  remember (m mod 12)%Z as r eqn:Er.
  remember (m / 12)%Z as q eqn:Eq.
  assert (Hc : (r = 0 \/ r = 1 \/ r = 2 \/ r = 3 \/ r = 4 \/ r = 5 \/ r = 6
                \/ r = 7 \/ r = 8 \/ r = 9 \/ r = 10 \/ r = 11)%Z) by lia.
  destruct Hc as [Hc|[Hc|[Hc|[Hc|[Hc|[Hc|[Hc|[Hc|[Hc|[Hc|[Hc|Hc]]]]]]]]]]];
    rewrite Hc in *; eexists _, _; (split; [reflexivity|]);
    match goal with
    | |- _ = Ok (_, ?k) =>
        replace m with ((q - 1 + 1) * 12 + k)%Z at 1 by lia
    end; reflexivity.
Qed.

Lemma pitch_class_of_result (modifier name : PyVal) (octave mid pc : Z) :
  pitch_name_2_midi_PC modifier name octave = Ok (mid, pc) ->
  (0 <= pc < 12)%Z /\ (mid mod 12 = pc)%Z.
Proof.
  unfold pitch_name_2_midi_PC.
  destruct (is_rest name).
  - intros [= <- <-]. split; [lia|reflexivity].
  - destruct (str_lower name) as [lname|]; cbn [rbind]; [|discriminate].
    destruct (getitem base_classes (PyStr lname)) as [b|]; cbn [rbind];
      [|discriminate].
    destruct (getitem modifier_offsets modifier) as [o|]; cbn [rbind];
      [|discriminate].
    intros [= <- <-]. split; [apply Z.mod_pos_bound; lia|].
    rewrite Z.add_comm. apply Z_mod_plus_full.
Qed.

(** What a constructed performed note holds, read off [__init__]. *)
Lemma pnote_init_inv
    (Number NoteName Modifier Octave Onset Offset AdjOffset Velocity
       version : PyVal) (MidiPitch : option Z) (o : MatchPnote.t) :
  MatchPnote.init Number NoteName Modifier Octave Onset Offset AdjOffset
    Velocity MidiPitch version = Ok o ->
  MatchPnote.Number o = Number
  /\ MatchPnote.Onset o = Onset
  /\ MatchPnote.Offset o = Offset
  /\ MatchPnote.AdjOffset o
     = (if Py.is_none AdjOffset then Offset else AdjOffset)
  /\ Py.int Velocity = Ok (MatchPnote.Velocity o)
  /\ MatchPnote.version o = version
  /\ (exists n, MatchPnote.NoteName o = PyStr n /\ n ∈ NOTE_NAMES)
  /\ MatchPnote.MidiPitch o
     = option_map (fun m => (m, m mod 12)%Z) MidiPitch
  /\ (forall m, MidiPitch = Some m ->
        pitch_name_2_midi_PC (MatchPnote.Modifier o) (MatchPnote.NoteName o)
          (MatchPnote.Octave o) = Ok (m, m mod 12)%Z)
  /\ (Py.is_none NoteName || Py.is_none Modifier || Py.is_none Octave = false ->
        str_upper NoteName = Ok (match MatchPnote.NoteName o with
                                 | PyStr n => n | _ => EmptyString end)
        /\ MatchPnote.Modifier o = Modifier
        /\ Py.int Octave = Ok (MatchPnote.Octave o)).
Proof.
  unfold MatchPnote.init.
  destruct (negb (Py.is_none NoteName || Py.is_none Modifier
                  || Py.is_none Octave)) eqn:Hsp.
  - (* the spelling is given *)
    cbn [andb].
    destruct (str_upper NoteName) as [up|] eqn:Hup; cbn [rbind];
      [|discriminate].
    destruct (bool_decide (up ∈ NOTE_NAMES)) eqn:Hin; [|discriminate].
    apply bool_decide_eq_true in Hin.
    destruct (Py.int Octave) as [oct|] eqn:Hoct; cbn [rbind]; [|discriminate].
    destruct MidiPitch as [midi|].
    + destruct (pitch_name_2_midi_PC Modifier (PyStr up) oct) as [[mid pc]|]
        eqn:Hpc; cbn [rbind]; [|discriminate].
      cbn [fst]. destruct (midi =? mid)%Z eqn:Hmid; cbn [negb rbind];
        [|discriminate].
      apply Z.eqb_eq in Hmid. subst mid.
      destruct (Py.int Velocity) as [v|]; cbn [rbind]; [|discriminate].
      intros [= <-]. cbn.
      repeat (split; [reflexivity|]). split; [eauto|].
      split; [reflexivity|]. split.
      * intros m [= <-]. rewrite Hpc. f_equal. f_equal.
        symmetry. apply (pitch_class_of_result _ _ _ _ _ Hpc).
      * intros _. repeat split; reflexivity.
    + cbn [rbind].
      destruct (Py.int Velocity) as [v|]; cbn [rbind]; [|discriminate].
      intros [= <-]. cbn.
      repeat (split; [reflexivity|]). split; [eauto|].
      split; [reflexivity|]. split; [discriminate|].
      intros _. repeat split; reflexivity.
  - (* the spelling comes from the MIDI pitch *)
    destruct MidiPitch as [midi|]; cbn [negb andb bool_decide]; [|].
    2:{ replace (bool_decide (is_Some (@None Z))) with false by reflexivity.
        discriminate. }
    replace (bool_decide (is_Some (Some midi))) with true by reflexivity.
    cbn [negb andb]. change (default 0%Z (Some midi)) with midi.
    destruct (spelling_of_midi midi) as (name & modifier & Hdict & Hpc).
    rewrite Hdict. cbn [rbind]. rewrite Hpc. cbn [rbind fst].
    rewrite Z.eqb_refl. cbn [negb rbind].
    destruct (Py.int Velocity) as [v|]; cbn [rbind]; [|discriminate].
    intros [= <-]. cbn.
    repeat (split; [reflexivity|]). split.
    + exists name. split; [reflexivity|].
      clear Hpc. revert Hdict.
      pose proof (Z.mod_pos_bound midi 12 ltac:(lia)) as Hr.
      remember (midi mod 12)%Z as r.
      assert (Hc : (r = 0 \/ r = 1 \/ r = 2 \/ r = 3 \/ r = 4 \/ r = 5
                    \/ r = 6 \/ r = 7 \/ r = 8 \/ r = 9 \/ r = 10
                    \/ r = 11)%Z) by lia.
      destruct Hc as [Hc|[Hc|[Hc|[Hc|[Hc|[Hc|[Hc|[Hc|[Hc|[Hc|[Hc|Hc]]]]]]]]]]];
        rewrite Hc; intros [= <- _]; apply list_elem_of_In; simpl; auto 10.
    + split; [reflexivity|]. split.
      * intros m [= <-]. exact Hpc.
      * apply negb_false_iff in Hsp. rewrite Hsp. discriminate.
Qed.

(** X1: the spelling that [MatchPnote.__init__] infers from a MIDI
    number (the entry of [PC_DICT] for the pitch class, the octave
    [midi // 12 - 1]) maps back through [pitch_name_2_midi_PC] to that
    MIDI number and its pitch class, for every integer. *)
Theorem midi_spelling_round_trip (midi : Z) :
  exists name modifier,
    PC_DICT !! (midi mod 12)%Z = Some (name, modifier)
    /\ pitch_name_2_midi_PC (PyStr modifier) (PyStr name) (midi / 12 - 1)
       = Ok (midi, midi mod 12)%Z.
Proof. exact (spelling_of_midi midi). Qed.

(** X2: whenever [pitch_name_2_midi_PC] returns, the pitch class lies in
    0..11 and is the MIDI number modulo 12, also for flats below C and
    for negative octaves. *)
Theorem pitch_class_is_midi_mod_12 (modifier name : PyVal)
    (octave mid pc : Z) :
  pitch_name_2_midi_PC modifier name octave = Ok (mid, pc) ->
  (0 <= pc < 12)%Z /\ (mid mod 12 = pc)%Z.
Proof. apply pitch_class_of_result. Qed.

Lemma pitch_class_is_midi_mod_12_witness :
  pitch_name_2_midi_PC (PyStr "bb") (PyStr "C") (-1) = Ok (-2, 10)%Z
  /\ (0 <= 10 < 12)%Z /\ ((-2) mod 12 = 10)%Z.
Proof.
  split; [reflexivity|].
  exact (pitch_class_is_midi_mod_12 (PyStr "bb") (PyStr "C") (-1) (-2) 10
           eq_refl).
Defined.

(** ** The constructor of a performed note *)

(** X3: a performed note built from a MIDI pitch alone (one of note
    name, modifier, octave is [None]) is always constructed when the
    velocity converts to an [int]: the spelling is read off [PC_DICT],
    and the check of the MIDI pitch against that spelling cannot fail. *)
Theorem pnote_from_midi_pitch_alone
    (Number NoteName Modifier Octave Onset Offset AdjOffset Velocity
       version : PyVal) (midi velocity : Z) :
  Py.is_none NoteName || Py.is_none Modifier || Py.is_none Octave = true ->
  Py.int Velocity = Ok velocity ->
  exists name modifier,
    PC_DICT !! (midi mod 12)%Z = Some (name, modifier)
    /\ MatchPnote.init Number NoteName Modifier Octave Onset Offset AdjOffset
         Velocity (Some midi) version
       = Ok {| MatchPnote.Number := Number;
               MatchPnote.NoteName := PyStr name;
               MatchPnote.Modifier := PyStr modifier;
               MatchPnote.Octave := (midi / 12 - 1)%Z;
               MatchPnote.MidiPitch := Some (midi, midi mod 12)%Z;
               MatchPnote.Onset := Onset;
               MatchPnote.Offset := Offset;
               MatchPnote.AdjOffset :=
                 if Py.is_none AdjOffset then Offset else AdjOffset;
               MatchPnote.Velocity := velocity;
               MatchPnote.version := version |}.
Proof.
  intros Hsp Hv.
  destruct (spelling_of_midi midi) as (name & modifier & Hdict & Hpc).
  exists name, modifier. split; [exact Hdict|].
  unfold MatchPnote.init. rewrite Hsp.
  replace (bool_decide (is_Some (Some midi))) with true by reflexivity.
  cbn [negb andb]. change (default 0%Z (Some midi)) with midi.
  rewrite Hdict. cbn [rbind]. rewrite Hpc. cbn [rbind fst].
  rewrite Z.eqb_refl. cbn [negb rbind]. rewrite Hv. reflexivity.
Qed.

Lemma pnote_from_midi_pitch_alone_witness :
  Py.is_none PyNone || Py.is_none PyNone || Py.is_none PyNone = true
  /\ Py.int (PyInt 49) = Ok 49%Z
  /\ exists name modifier,
       PC_DICT !! (61 mod 12)%Z = Some (name, modifier)
       /\ MatchPnote.init (PyInt 0) PyNone PyNone PyNone (PyInt 1) (PyInt 2)
            PyNone (PyInt 49) (Some 61%Z) LATEST_VERSION
          = Ok {| MatchPnote.Number := PyInt 0;
                  MatchPnote.NoteName := PyStr name;
                  MatchPnote.Modifier := PyStr modifier;
                  MatchPnote.Octave := (61 / 12 - 1)%Z;
                  MatchPnote.MidiPitch := Some (61, 61 mod 12)%Z;
                  MatchPnote.Onset := PyInt 1;
                  MatchPnote.Offset := PyInt 2;
                  MatchPnote.AdjOffset := PyInt 2;
                  MatchPnote.Velocity := 49%Z;
                  MatchPnote.version := LATEST_VERSION |}.
Proof.
  split; [reflexivity|]. split; [reflexivity|].
  exact (pnote_from_midi_pitch_alone (PyInt 0) PyNone PyNone PyNone (PyInt 1)
           (PyInt 2) PyNone (PyInt 49) LATEST_VERSION 61 49 eq_refl eq_refl).
Defined.

(** X4: every performed note that the constructor returns has one of
    the seven note letters as its [NoteName]; and if a MIDI pitch was
    given, the note records it with its pitch class, and its spelling
    maps to exactly that pair. *)
Theorem pnote_is_consistent
    (Number NoteName Modifier Octave Onset Offset AdjOffset Velocity
       version : PyVal) (MidiPitch : option Z) (o : MatchPnote.t) :
  MatchPnote.init Number NoteName Modifier Octave Onset Offset AdjOffset
    Velocity MidiPitch version = Ok o ->
  (exists n, MatchPnote.NoteName o = PyStr n /\ n ∈ NOTE_NAMES)
  /\ MatchPnote.MidiPitch o = option_map (fun m => (m, m mod 12)%Z) MidiPitch
  /\ (forall m, MidiPitch = Some m ->
        pitch_name_2_midi_PC (MatchPnote.Modifier o) (MatchPnote.NoteName o)
          (MatchPnote.Octave o) = Ok (m, m mod 12)%Z).
Proof.
  intros H. apply pnote_init_inv in H.
  destruct H as (_ & _ & _ & _ & _ & _ & Hn & Hm & Hp & _). auto.
Qed.

Lemma pnote_is_consistent_witness :
  exists o,
    MatchPnote.init (PyInt 0) (PyStr "e") (PyStr "n") (PyInt 4) (PyInt 1)
      (PyInt 2) PyNone (PyInt 49) (Some 64%Z) LATEST_VERSION = Ok o
    /\ (exists n, MatchPnote.NoteName o = PyStr n /\ n ∈ NOTE_NAMES)
    /\ MatchPnote.MidiPitch o = Some (64, 4)%Z.
Proof.
  eexists. split; [reflexivity|].
  destruct (pnote_is_consistent (PyInt 0) (PyStr "e") (PyStr "n") (PyInt 4)
              (PyInt 1) (PyInt 2) PyNone (PyInt 49) LATEST_VERSION
              (Some 64%Z) _ eq_refl) as (Hn & Hm & _).
  split; [exact Hn|exact Hm].
Defined.

(** X5: the constructor stores [Number], [Onset], [Offset] and
    [version] as given and the velocity as [int(Velocity)]; [AdjOffset]
    is the given one, or [Offset] when [None] was given. *)
Theorem pnote_keeps_its_fields
    (Number NoteName Modifier Octave Onset Offset AdjOffset Velocity
       version : PyVal) (MidiPitch : option Z) (o : MatchPnote.t) :
  MatchPnote.init Number NoteName Modifier Octave Onset Offset AdjOffset
    Velocity MidiPitch version = Ok o ->
  MatchPnote.Number o = Number
  /\ MatchPnote.Onset o = Onset
  /\ MatchPnote.Offset o = Offset
  /\ MatchPnote.AdjOffset o
     = (if Py.is_none AdjOffset then Offset else AdjOffset)
  /\ Py.int Velocity = Ok (MatchPnote.Velocity o)
  /\ MatchPnote.version o = version.
Proof.
  intros H. apply pnote_init_inv in H.
  destruct H as (H1 & H2 & H3 & H4 & H5 & H6 & _). auto 10.
Qed.

Lemma pnote_keeps_its_fields_witness :
  exists o,
    MatchPnote.init (PyInt 0) (PyStr "E") (PyStr "n") (PyInt 4) (PyInt 1)
      (PyInt 2) PyNone (PyStr " 49 ") None LATEST_VERSION = Ok o
    /\ MatchPnote.AdjOffset o = PyInt 2
    /\ MatchPnote.Velocity o = 49%Z.
Proof.
  eexists. split; [reflexivity|].
  destruct (pnote_keeps_its_fields (PyInt 0) (PyStr "E") (PyStr "n")
              (PyInt 4) (PyInt 1) (PyInt 2) PyNone (PyStr " 49 ")
              LATEST_VERSION None _ eq_refl) as (_ & _ & _ & Ha & Hv & _).
  split; [exact Ha|reflexivity].
Defined.

(** X6: with the spelling given in full, the stored note name is the
    upper case of the one given, the modifier is stored as given and
    the octave as [int(Octave)]. *)
Theorem pnote_spelling_is_upper_cased
    (Number Modifier Octave Onset Offset AdjOffset Velocity version : PyVal)
    (name : string) (MidiPitch : option Z) (o : MatchPnote.t) :
  Py.is_none Modifier = false ->
  Py.is_none Octave = false ->
  MatchPnote.init Number (PyStr name) Modifier Octave Onset Offset AdjOffset
    Velocity MidiPitch version = Ok o ->
  MatchPnote.NoteName o = PyStr (Str.upper name)
  /\ MatchPnote.Modifier o = Modifier
  /\ Py.int Octave = Ok (MatchPnote.Octave o).
Proof.
  intros Hm Ho H. apply pnote_init_inv in H.
  destruct H as (_ & _ & _ & _ & _ & _ & (n & Hn & _) & _ & _ & Hs).
  cbn [Py.is_none orb] in Hs. rewrite Hm, Ho in Hs.
  destruct (Hs eq_refl) as (Hup & Hmod & Hoct).
  rewrite Hn in Hup. cbn in Hup. injection Hup as Hup.
  split; [rewrite Hn, Hup; reflexivity|]. auto.
Qed.

Lemma pnote_spelling_is_upper_cased_witness :
  Py.is_none (PyStr "n") = false
  /\ Py.is_none (PyStr "4") = false
  /\ exists o,
       MatchPnote.init (PyInt 0) (PyStr "e") (PyStr "n") (PyStr "4")
         (PyInt 1) (PyInt 2) PyNone (PyInt 49) None LATEST_VERSION = Ok o
       /\ MatchPnote.NoteName o = PyStr "E"
       /\ MatchPnote.Octave o = 4%Z.
Proof.
  split; [reflexivity|]. split; [reflexivity|].
  eexists. split; [reflexivity|].
  destruct (pnote_spelling_is_upper_cased (PyInt 0) (PyStr "n") (PyStr "4")
              (PyInt 1) (PyInt 2) PyNone (PyInt 49) LATEST_VERSION "e" None
              _ eq_refl eq_refl eq_refl) as (Hn & _ & Ho).
  split; [exact Hn|reflexivity].
Defined.

(** X7: without the full spelling and without a MIDI pitch there is no
    note: the constructor raises [ValueError], whatever else is given. *)
Theorem pnote_needs_pitch_information
    (Number NoteName Modifier Octave Onset Offset AdjOffset Velocity
       version : PyVal) :
  Py.is_none NoteName || Py.is_none Modifier || Py.is_none Octave = true ->
  MatchPnote.init Number NoteName Modifier Octave Onset Offset AdjOffset
    Velocity None version = Raise ValueError.
Proof. intros H. unfold MatchPnote.init. rewrite H. reflexivity. Qed.

Lemma pnote_needs_pitch_information_witness :
  Py.is_none (PyStr "E") || Py.is_none (PyStr "n") || Py.is_none PyNone = true
  /\ MatchPnote.init (PyInt 0) (PyStr "E") (PyStr "n") PyNone (PyInt 1)
       (PyInt 2) (PyInt 2) (PyInt 49) None LATEST_VERSION = Raise ValueError.
Proof.
  split; [reflexivity|].
  exact (pnote_needs_pitch_information (PyInt 0) (PyStr "E") (PyStr "n")
           PyNone (PyInt 1) (PyInt 2) (PyInt 2) (PyInt 49) LATEST_VERSION
           eq_refl).
Defined.

(** ** Field interpretation *)

Lemma contains_false_forallb (sep : ascii) (s : string) :
  Str.contains sep s = false ->
  Str.forallb (fun c => negb (Ascii.eqb c sep)) s = true.
Proof.
  unfold Str.contains. induction s as [|c s IH]; simpl; [reflexivity|].
  intros [Hc Hs]%orb_false_elim. rewrite Ascii.eqb_sym, Hc. simpl. auto.
Qed.

Lemma split_absent (sep : ascii) (s : string) :
  Str.contains sep s = false -> Str.split sep s = [s].
Proof.
  intros H. unfold Str.split.
  rewrite split_go_absent by (apply contains_false_forallb; exact H).
  reflexivity.
Qed.

Lemma add_number (a b r : PyVal) :
  Py.add a b = Ok r -> Py.is_number r = true.
Proof.
  destruct a, b; simpl; try discriminate.
  - intros [= <-]. reflexivity.
  - destruct (Float.of_int n); simpl; [|discriminate]. intros [= <-].
    reflexivity.
  - destruct (Float.of_int n); simpl; [|discriminate]. intros [= <-].
    reflexivity.
  - intros [= <-]. reflexivity.
Qed.

Lemma sum_from_number (l : list PyVal) (acc r : PyVal) :
  Py.is_number acc = true -> Py.sum_from acc l = Ok r ->
  Py.is_number r = true.
Proof.
  revert acc. induction l as [|v l IH]; intros acc Hacc; simpl.
  - intros [= <-]. exact Hacc.
  - destruct (Py.add acc v) as [a|] eqn:Ha; simpl; [|discriminate].
    apply IH. exact (add_number _ _ _ Ha).
Qed.

(** X8: with additions disabled, [interpret_field_rational] raises
    nothing but [ZeroDivisionError], and only on a token that is not a
    number and that the rational pattern matches. *)
Theorem interpret_field_rational_raising_token (data : string) (e : exn) :
  interpret_field_rational data false = Raise e ->
  e = ZeroDivisionError
  /\ interpret_field data = PyStr data
  /\ is_Some (Re.match_ rational_pattern data).
Proof.
  intros H. split; [exact (interpret_field_rational_raises_only_zero_division _ _ H)|].
  unfold interpret_field_rational in H. cbn [interpret_field_rational_rec] in H.
  destruct (interpret_field data) as [| | |v|] eqn:Hv; try discriminate.
  apply interpret_field_str in Hv as ->.
  split; [reflexivity|].
  destruct (Re.match_ rational_pattern data); [eauto|discriminate].
Qed.

Lemma interpret_field_rational_raising_token_witness :
  interpret_field_rational "1/0" false = Raise ZeroDivisionError
  /\ interpret_field "1/0" = PyStr "1/0".
Proof.
  assert (H : interpret_field_rational "1/0" false = Raise ZeroDivisionError)
    by (vm_compute; reflexivity).
  split; [exact H|].
  destruct (interpret_field_rational_raising_token "1/0" ZeroDivisionError H)
    as (_ & Hs & _).
  exact Hs.
Defined.

(** X9: on a token without a plus sign the [allow_additions] flag makes
    no difference. *)
Theorem additions_need_a_plus (data : string) :
  Str.contains "+" data = false ->
  interpret_field_rational data true = interpret_field_rational data false.
Proof.
  intros Hplus. unfold interpret_field_rational.
  cbn [interpret_field_rational_rec].
  destruct (interpret_field data) as [| | |v|] eqn:Hv; try reflexivity.
  apply interpret_field_str in Hv as ->.
  destruct (Re.match_ rational_pattern data); [reflexivity|].
  rewrite (split_absent "+" data Hplus). reflexivity.
Qed.

Lemma additions_need_a_plus_witness :
  Str.contains "+" "1/4" = false
  /\ interpret_field_rational "1/4" true = interpret_field_rational "1/4" false.
Proof.
  split; [reflexivity|]. exact (additions_need_a_plus "1/4" eq_refl).
Defined.

(** X10: a string that [interpret_field_rational] returns is the token
    itself, unchanged, with either setting of the flag. *)
Theorem interpret_field_rational_keeps_text (data v : string) (b : bool) :
  interpret_field_rational data b = Ok (PyStr v) -> v = data.
Proof.
  unfold interpret_field_rational. cbn [interpret_field_rational_rec].
  destruct (interpret_field data) as [| | |s|] eqn:Hs; try discriminate.
  apply interpret_field_str in Hs as ->.
  destruct (Re.match_ rational_pattern data) as [m|].
  - destruct (Re.groups m) as [|g0 [|g1 [|]]]; try discriminate.
    destruct (Py.float g0); cbn [rbind]; [|discriminate].
    destruct (Py.float g1); cbn [rbind]; [|discriminate].
    destruct (Float.div a a0); cbn [rbind]; discriminate.
  - destruct b; [|congruence].
    destruct (1 <? length (Str.split "+" data))%nat; [|congruence].
    destruct (mapR _ _) as [iparts|]; cbn [rbind]; [|discriminate].
    destruct (forallb Py.is_number iparts); [|congruence].
    intros H. apply sum_from_number in H; [discriminate|reflexivity].
Qed.

Lemma interpret_field_rational_keeps_text_witness :
  interpret_field_rational "staff1" true = Ok (PyStr "staff1")
  /\ "staff1" = "staff1".
Proof.
  assert (H : interpret_field_rational "staff1" true = Ok (PyStr "staff1"))
    by (vm_compute; reflexivity).
  split; [exact H|].
  exact (eq_sym (interpret_field_rational_keeps_text "staff1" "staff1" true H)).
Defined.

(** ** The text of an integer *)

Lemma chr_digit (k : nat) :
  (k < 10)%nat ->
  Str.is_digit (Str.chr (48 + k)) = true
  /\ Str.digit_val (Str.chr (48 + k)) = Z.of_nat k.
Proof.
  intros Hk. do 10 (destruct k as [|k]; [split; reflexivity|]). lia.
Qed.

Lemma digits_value_app (a : Z) (s1 s2 : string) :
  Str.digits_value a (s1 +:+ s2) = Str.digits_value (Str.digits_value a s1) s2.
Proof.
  revert a. induction s1 as [|c s1 IH]; intros a; [reflexivity|].
  change (String c s1 +:+ s2) with (String c (s1 +:+ s2)). simpl. apply IH.
Qed.

Lemma forallb_app (p : ascii -> bool) (s1 s2 : string) :
  Str.forallb p (s1 +:+ s2) = Str.forallb p s1 && Str.forallb p s2.
Proof.
  induction s1 as [|c s1 IH]; [reflexivity|].
  change (String c s1 +:+ s2) with (String c (s1 +:+ s2)). simpl.
  rewrite IH. apply andb_assoc.
Qed.

Lemma str_app_assoc (s1 s2 s3 : string) :
  (s1 +:+ s2) +:+ s3 = s1 +:+ (s2 +:+ s3).
Proof.
  induction s1 as [|c s1 IH]; [reflexivity|].
  change ((String c s1 +:+ s2) +:+ s3) with (String c ((s1 +:+ s2) +:+ s3)).
  change (String c s1 +:+ (s2 +:+ s3)) with (String c (s1 +:+ (s2 +:+ s3))).
  rewrite IH. reflexivity.
Qed.

Lemma last_digit (n : Z) :
  (0 <= n)%Z ->
  exists d, Str.chr (48 + Z.to_nat (n mod 10)) = d
            /\ Str.is_digit d = true /\ Str.digit_val d = (n mod 10)%Z.
Proof.
  intros Hn.
  pose proof (Z.mod_pos_bound n 10 ltac:(lia)) as Hmod.
  destruct (chr_digit (Z.to_nat (n mod 10)) ltac:(lia)) as [Hd Hv].
  rewrite Z2Nat.id in Hv by lia. eauto.
Qed.

(** The digits that [Str.of_pos_go] writes in front of [acc]. *)
Lemma of_pos_go_digits (fuel : nat) :
  forall (n : Z) (acc : string),
    (0 < n < 2 ^ Z.of_nat fuel)%Z ->
    exists c ds,
      Str.of_pos_go fuel n acc = String c ds +:+ acc
      /\ Str.forallb Str.is_digit (String c ds) = true
      /\ Str.digits_value 0 (String c ds) = n.
Proof.
  induction fuel as [|fuel IH]; intros n acc Hn.
  - change (2 ^ Z.of_nat 0)%Z with 1%Z in Hn. lia.
  - cbn [Str.of_pos_go].
    pose proof (Z.mod_pos_bound n 10 ltac:(lia)) as Hmod.
    pose proof (Z.div_mod n 10 ltac:(lia)) as Hdm.
    destruct (last_digit n ltac:(lia)) as (d & -> & Hd & Hv).
    destruct (n / 10 =? 0)%Z eqn:Hq.
    + apply Z.eqb_eq in Hq. exists d, EmptyString.
      split; [reflexivity|]. cbn [Str.forallb Str.digits_value].
      rewrite Hd, Hv. split; [reflexivity|lia].
    + apply Z.eqb_neq in Hq.
      assert (Hq' : (0 < n / 10 < 2 ^ Z.of_nat fuel)%Z).
      { split.
        - pose proof (Z.div_pos n 10 ltac:(lia) ltac:(lia)). lia.
        - apply Z.div_lt_upper_bound; [lia|].
          rewrite Nat2Z.inj_succ, Z.pow_succ_r in Hn by lia. lia. }
      destruct (IH (n / 10)%Z (String d acc) Hq') as (c & ds & Hgo & Hall & Hval).
      exists c, (ds +:+ String d EmptyString).
      split; [|split].
      * rewrite Hgo.
        change (String c ds +:+ String d acc)
          with (String c (ds +:+ String d acc)).
        change (String c (ds +:+ String d EmptyString) +:+ acc)
          with (String c ((ds +:+ String d EmptyString) +:+ acc)).
        rewrite str_app_assoc. reflexivity.
      * change (String c (ds +:+ String d EmptyString))
          with (String c ds +:+ String d EmptyString).
        rewrite forallb_app, Hall. cbn [Str.forallb].
        rewrite Hd. reflexivity.
      * change (String c (ds +:+ String d EmptyString))
          with (String c ds +:+ String d EmptyString).
        rewrite digits_value_app, Hval. cbn [Str.digits_value].
        rewrite Hv. lia.
Qed.

Lemma size_nat_bound (p : positive) :
  (Zpos p < 2 ^ Z.of_nat (Pos.size_nat p))%Z.
Proof.
  induction p as [p IH|p IH|]; cbn [Pos.size_nat];
    [rewrite Nat2Z.inj_succ, Z.pow_succ_r by lia; lia
    |rewrite Nat2Z.inj_succ, Z.pow_succ_r by lia; lia
    |reflexivity].
Qed.

Lemma of_pos_digits (p : positive) :
  exists c ds,
    Str.of_pos_go (Pos.size_nat p) (Zpos p) EmptyString = String c ds
    /\ Str.forallb Str.is_digit (String c ds) = true
    /\ Str.digits_value 0 (String c ds) = Zpos p.
Proof.
  destruct (of_pos_go_digits (Pos.size_nat p) (Zpos p) EmptyString)
    as (c & ds & Hgo & Hall & Hval).
  { split; [lia|apply size_nat_bound]. }
  exists c, ds. rewrite Hgo.
  change (String c ds +:+ EmptyString) with (String c (ds +:+ EmptyString)).
  rewrite str_append_empty_r. auto.
Qed.

Lemma lstrip_no_blank (s : string) :
  Str.forallb (fun c => negb (Str.is_blank c)) s = true -> Str.lstrip s = s.
Proof.
  destruct s as [|c s]; cbn [Str.lstrip Str.forallb]; [reflexivity|].
  intros [Hc _]%andb_prop. destruct (Str.is_blank c); [discriminate|reflexivity].
Qed.

Lemma strip_no_blank (s : string) :
  Str.forallb (fun c => negb (Str.is_blank c)) s = true -> Str.strip s = s.
Proof.
  intros Hs. unfold Str.strip. rewrite (lstrip_no_blank s Hs).
  rewrite lstrip_no_blank; [apply str_rev_rev|].
  unfold Str.rev. rewrite rev_onto_forallb, Hs. reflexivity.
Qed.

(** [int] reads a run of digits, with or without a minus sign. *)
Lemma int_of_digits (c : ascii) (ds : string) :
  Str.forallb Str.is_digit (String c ds) = true ->
  Py.int_of_string (String c ds) = Some (Str.digits_value 0 (String c ds))
  /\ Py.int_of_string (String "-" (String c ds))
     = Some (- Str.digits_value 0 (String c ds))%Z.
Proof.
  intros Hall.
  pose proof Hall as Hall'. cbn [Str.forallb] in Hall'.
  apply andb_prop in Hall' as [Hc Hds].
  destruct (digit_props c Hc) as (Hb & Hu & Hm & Hp & _).
  assert (Hbody : Float.underscores_ok "_" (String c ds)
                  && negb (Str.is_empty (Str.remove "_" (String c ds)))
                  && Str.forallb Str.is_digit (Str.remove "_" (String c ds))
                  = true).
  { rewrite (remove_digits _ Hall), Hall.
    cbn [Float.underscores_ok]. rewrite Hu, Hc.
    rewrite (underscores_ok_digits c ds Hds Hu). reflexivity. }
  split.
  - unfold Py.int_of_string. rewrite (strip_digits _ Hall).
    unfold Float.split_sign. rewrite Hm, Hp. rewrite Hbody.
    rewrite (remove_digits _ Hall). reflexivity.
  - unfold Py.int_of_string.
    rewrite strip_no_blank.
    + cbn [Float.split_sign].
      replace (Ascii.eqb "-" "-") with true by reflexivity.
      rewrite Hbody. rewrite (remove_digits _ Hall). reflexivity.
    + cbn [Str.forallb]. rewrite Hb.
      replace (Str.is_blank "-") with false by reflexivity.
      cbn [negb andb].
      eapply forallb_weaken; [|exact Hds].
      intros a Ha. destruct (digit_props a Ha) as (-> & _). reflexivity.
Qed.

Lemma int_of_string_of_Z (n : Z) : Py.int_of_string (Str.of_Z n) = Some n.
Proof.
  destruct n as [|p|p]; [reflexivity| |]; unfold Str.of_Z;
    destruct (of_pos_digits p) as (c & ds & -> & Hall & Hval);
    destruct (int_of_digits c ds Hall) as [Hpos Hneg].
  - rewrite Hpos, Hval. reflexivity.
  - rewrite Hneg, Hval. reflexivity.
Qed.

(** X11: the decimal text of an integer is read back as that integer:
    [interpret_field (str n)] is [n], for every [n]. *)
Theorem interpret_field_of_Z (n : Z) : interpret_field (Str.of_Z n) = PyInt n.
Proof. unfold interpret_field. rewrite int_of_string_of_Z. reflexivity. Qed.
